(** * serverless-single-page-app-plugin: the plugin's operations, embedded.

    The plugin (src/index.js) is one class, [ServerlessPlugin], with a
    resolver of stack outputs ([getDescribeStacksOutput]), a runner of the
    [aws] command line ([runAwsCommand]) and five operations built from
    them.  Each method is translated below as a function over an explicit
    state: the external world (cloud provider and child processes), the lines
    written with [serverless.cli.log], the child processes started, and the
    rejections of promises that nobody holds. *)

From Stdlib Require Import Ascii String List ZArith Bool Lia.
Import ListNotations.
Local Open Scope string_scope.

(** ** JavaScript values the plugin touches *)

Module Js.

(** [if (s)], [!s] and [s || d] on a string: only the empty string is
    falsy. *)
Definition truthy (s : string) : bool := negb (s =? "").

(** A property that holds a string or is [undefined]. *)
Definition truthy_opt (o : option string) : bool :=
  match o with
  | Some s => truthy s
  | None => false
  end.

(** [s || d]. *)
Definition or_else (s d : string) : string := if truthy s then s else d.

(** What can be thrown, or reject a promise. *)
Inductive Error : Type :=
| RequestError (message : string)  (* a rejection of [provider.request] *)
| TypeError (property : string)    (* reading [property] of undefined *)
| PlainError (message : string).   (* [new Error(message)] *)

(** How a promise settles (and how an [async] body ends). *)
Inductive Outcome (A : Type) : Type :=
| Fulfilled (v : A)
| Rejected (e : Error).
Arguments Fulfilled {A} v.
Arguments Rejected {A} e.

(** [Array.prototype.join(' ')], which [spawnSync] applies to
    [[command, ...args]] under [{ shell: true }] to obtain the line handed
    to the shell. *)
Definition join_spaces (l : list string) : string := String.concat " " l.

End Js.
Import Js.

(** ** Data exchanged with the provider and with child processes *)

Record Output : Type := mkOutput {
  OutputKey : string;
  OutputValue : string
}.

Record Stack : Type := mkStack {
  Outputs : list Output
}.

(** The result of [describeStacks]: [result.Stacks]. *)
Record DescribeStacksResult : Type := mkDescribeStacksResult {
  Stacks : list Stack
}.

Record Distribution : Type := mkDistribution {
  Id : string;
  DomainName : string
}.

(** The result of [listDistributions]: [result.DistributionList.Items]. *)
Record ListDistributionsResult : Type := mkListDistributionsResult {
  Items : list Distribution
}.

(** What [spawnSync] returns: the exit status and the two captured
    streams, already as text. *)
Record SpawnResult : Type := mkSpawnResult {
  spawn_status : Z;
  spawn_stdout : string;
  spawn_stderr : string
}.

(** What [runAwsCommand] returns: [{ stdout, sterr }]. *)
Record RunResult : Type := mkRunResult {
  stdout : string;
  sterr : string
}.

(** An argument of [serverless.cli.log]: a string, or (in
    [syncDirectory]) the array of arguments. *)
Inductive LogEntry : Type :=
| LogString (s : string)
| LogArray (l : list string).

(** A child process as handed to [spawnSync]: the command and its
    arguments. *)
Record Invocation : Type := mkInvocation {
  inv_command : string;
  inv_args : list string
}.

(** The line the shell receives for an invocation. *)
Definition command_line (i : Invocation) : string :=
  join_spaces (inv_command i :: inv_args i).

(** ** The host: the [serverless] object, the options and the outside world

    [World] is the state of everything outside the plugin.  A provider
    request and a child process both read it and may change it. *)

Record Host (World : Type) : Type := mkHost {
  (* this.options.stage, this.options.region *)
  options_stage : option string;
  options_region : option string;
  (* this.serverless.variables.service.provider.region / .profile *)
  provider_region : option string;
  provider_profile : option string;
  (* this.serverless.service.custom.s3LocalPath, for a service that
     configures it: a host stands for an installation whose [custom] section
     holds the path as a string *)
  s3LocalPath : string;
  (* provider.naming.getStackName *)
  getStackName : option string -> string;
  (* provider.request('CloudFormation', 'describeStacks',
       { StackName }, stage, region) *)
  describeStacks :
    World -> string -> option string -> option string ->
    Outcome DescribeStacksResult * World;
  (* provider.request('CloudFront', 'listDistributions', {}, stage, region) *)
  listDistributions :
    World -> option string -> option string ->
    Outcome ListDistributionsResult * World;
  (* child_process.spawnSync(command, args, { shell: true }), for a shell
     that starts: both streams are captured.  A spawn that cannot start
     (result.error set, no stdout) is outside this host. *)
  spawnSync : World -> string -> list string -> SpawnResult * World
}.
Arguments mkHost {World}.
Arguments options_stage {World}.
Arguments options_region {World}.
Arguments provider_region {World}.
Arguments provider_profile {World}.
Arguments s3LocalPath {World}.
Arguments getStackName {World}.
Arguments describeStacks {World}.
Arguments listDistributions {World}.
Arguments spawnSync {World}.

(** ** State and the monad of the plugin's methods *)

Record State (World : Type) : Type := mkState {
  world : World;
  log : list LogEntry;         (* lines of serverless.cli.log, oldest first *)
  spawned : list Invocation;   (* child processes started, oldest first *)
  unhandled : list Error       (* rejections of promises nobody holds *)
}.
Arguments mkState {World}.
Arguments world {World}.
Arguments log {World}.
Arguments spawned {World}.
Arguments unhandled {World}.

(** A method body, or a promise with the work that settles it. *)
Definition M (World A : Type) : Type :=
  State World -> Outcome A * State World.

Section Monad.
Context {World : Type}.

Definition ret {A} (v : A) : M World A := fun st => (Fulfilled v, st).

(** [throw e], and a promise rejected with [e]. *)
Definition throw {A} (e : Error) : M World A := fun st => (Rejected e, st).

(** [p.then(f)], [await p; f], and sequencing: a rejection skips [f]. *)
Definition bind {A B} (p : M World A) (f : A -> M World B) : M World B :=
  fun st =>
    match p st with
    | (Fulfilled v, st') => f v st'
    | (Rejected e, st') => (Rejected e, st')
    end.

(** A promise that is built and dropped: the statement yields nothing, and
    a rejection stays with the runtime. *)
Definition detach {A} (p : M World A) (st : State World) : State World :=
  match p st with
  | (Fulfilled _, st') => st'
  | (Rejected e, st') =>
      mkState (world st') (log st') (spawned st') (unhandled st' ++ [e])
  end.

(** [this.serverless.cli.log(entry)]. *)
Definition cli_log (entry : LogEntry) : M World unit :=
  fun st =>
    (Fulfilled tt,
     mkState (world st) (log st ++ [entry]) (spawned st) (unhandled st)).

(** A callback without effects: it returns or throws. *)
Definition settle {A} (o : Outcome A) : M World A := fun st => (o, st).

(** [if (c) { body }]. *)
Definition when (c : bool) (body : M World unit) : M World unit :=
  if c then body else ret tt.

End Monad.

Notation "x <- p ;; q" := (bind p (fun x => q))
  (at level 61, p at next level, right associativity).
Notation "p ;; q" := (bind p (fun _ => q))
  (at level 61, right associativity).

(** ** The plugin *)

Section Plugin.
Context {World : Type}.
Variable h : Host World.

(** [provider.request('CloudFormation', 'describeStacks', ...)]. *)
Definition request_describeStacks (stackName : string)
  : M World DescribeStacksResult :=
  fun st =>
    let '(r, w) :=
      describeStacks h (world st) stackName
        (options_stage h) (options_region h) in
    (r, mkState w (log st) (spawned st) (unhandled st)).

(** [provider.request('CloudFront', 'listDistributions', ...)]. *)
Definition request_listDistributions : M World ListDistributionsResult :=
  fun st =>
    let '(r, w) :=
      listDistributions h (world st) (options_stage h) (options_region h) in
    (r, mkState w (log st) (spawned st) (unhandled st)).

(** [spawnSync(command, args, { shell: true })]. *)
Definition spawn (command : string) (args : list string)
  : M World SpawnResult :=
  fun st =>
    let '(r, w) := spawnSync h (world st) command args in
    (Fulfilled r,
     mkState w (log st) (spawned st ++ [mkInvocation command args])
       (unhandled st)).

(** The callback of [getDescribeStacksOutput]:
    [result.Stacks[0].Outputs.find(...).OutputValue]. *)
Definition outputValueOf (outputKey : string) (result : DescribeStacksResult)
  : Outcome string :=
  match Stacks result with
  | [] => Rejected (TypeError "Outputs")
  | stack0 :: _ =>
      let outputs := Outputs stack0 in
      match find (fun entry => OutputKey entry =? outputKey) outputs with
      | Some output => Fulfilled (OutputValue output)
      | None => Rejected (TypeError "OutputValue")
      end
  end.

(** The one request of [getDescribeStacksOutput], for the stack named
    after the stage. *)
Definition stackDescription : M World DescribeStacksResult :=
  let stackName := getStackName h (options_stage h) in
  request_describeStacks stackName.

Definition getDescribeStacksOutput (outputKey : string) : M World string :=
  result <- stackDescription ;;
  settle (outputValueOf outputKey result).

(** The command string of [runAwsCommand], before the arguments. *)
Definition awsCommand : string :=
  let command := "aws" in
  let command :=
    match provider_region h with
    | Some region =>
        if truthy region then command ++ " --region " ++ region
        else command
    | None => command
    end in
  let command :=
    match provider_profile h with
    | Some profile =>
        if truthy profile then command ++ " --profile " ++ profile
        else command
    | None => command
    end in
  command.

Definition runAwsCommand (args : list string) : M World RunResult :=
  result <- spawn awsCommand args ;;
  let stdout := spawn_stdout result in
  let sterr := spawn_stderr result in
  when (truthy stdout) (cli_log (LogString stdout)) ;;
  when (truthy sterr) (cli_log (LogString sterr)) ;;
  ret (mkRunResult stdout sterr).

(** The test every caller of [runAwsCommand] makes: [!sterr]. *)
Definition succeeded (r : RunResult) : bool := negb (truthy (sterr r)).

Definition syncArgs (s3Bucket : string) : list string :=
  ["s3"; "sync"; s3LocalPath h; "s3://" ++ s3Bucket ++ "/"].

Definition syncDirectory : State World -> State World :=
  detach (
    s3Bucket <- getDescribeStacksOutput "WebAppS3BucketOutput" ;;
    let args := syncArgs s3Bucket in
    cli_log (LogArray args) ;;
    r <- runAwsCommand args ;;
    when (succeeded r)
      (cli_log (LogString "Successfully synced to the S3 bucket"))).

Definition emptyArgs (s3Bucket : string) : list string :=
  ["s3"; "rm"; "s3://" ++ s3Bucket ++ "/"; "--recursive"].

Definition emptyBucket : State World -> State World :=
  detach (
    s3Bucket <- getDescribeStacksOutput "WebAppS3BucketOutput" ;;
    let args := emptyArgs s3Bucket in
    r <- runAwsCommand args ;;
    when (succeeded r)
      (cli_log (LogString "Successfully synced to the S3 bucket"))).

Definition bucketInfo : State World -> State World :=
  detach (
    outputValue <- getDescribeStacksOutput "WebAppS3BucketOutput" ;;
    cli_log (LogString ("Web App Bucket: " ++ or_else outputValue "Not Found"))).

Definition domainInfo : M World string :=
  outputValue <-
    getDescribeStacksOutput "WebAppCloudFrontDistributionOutput" ;;
  cli_log (LogString ("Web App Domain: " ++ or_else outputValue "Not Found")) ;;
  ret outputValue.

(** The argument ['"/*"'] of the invalidation: the path pattern between
    two double quotes, so that the shell does not expand it. *)
Definition quotedAllPaths : string :=
  let dquote := String (Ascii.ascii_of_nat 34) EmptyString in
  dquote ++ "/*" ++ dquote.

Definition invalidationArgs (distributionId : string) : list string :=
  ["cloudfront"; "create-invalidation"; "--distribution-id"; distributionId;
   "--paths"; quotedAllPaths].

Definition invalidateCache : M World unit :=
  domain <- domainInfo ;;
  result <- request_listDistributions ;;
  let distributions := Items result in
  match find (fun entry => DomainName entry =? domain) distributions with
  | Some distribution =>
      cli_log (LogString ("Invalidating CloudFront distribution with id: "
                          ++ Id distribution)) ;;
      r <- runAwsCommand (invalidationArgs (Id distribution)) ;;
      if succeeded r
      then cli_log (LogString "Successfully invalidated CloudFront cache")
      else throw (PlainError "Failed invalidating CloudFront cache")
  | None =>
      let message := "Could not find distribution with domain " ++ domain in
      cli_log (LogString message) ;;
      throw (PlainError message)
  end.

(** *** The operations as the framework calls them

    [this.hooks] binds lifecycle events to the methods.  A method either
    falls off its end (the caller receives [undefined]) or returns a
    promise. *)

Inductive Returned : Type :=
| ReturnedUndefined
| ReturnedPromise (settled : Outcome (option string)).

Definition Handler : Type := State World -> Returned * State World.

Definition returning_undefined (body : State World -> State World) : Handler :=
  fun st => (ReturnedUndefined, body st).

Definition returning_promise {A} (value : A -> option string) (p : M World A)
  : Handler :=
  fun st =>
    match p st with
    | (Fulfilled v, st') => (ReturnedPromise (Fulfilled (value v)), st')
    | (Rejected e, st') => (ReturnedPromise (Rejected e), st')
    end.

Inductive Operation : Type :=
| Sync | Empty | BucketInfo | DomainInfo | InvalidateCache.

Definition run_operation (op : Operation) : Handler :=
  match op with
  | Sync => returning_undefined syncDirectory
  | Empty => returning_undefined emptyBucket
  | BucketInfo => returning_undefined bucketInfo
  | DomainInfo => returning_promise Some domainInfo
  | InvalidateCache => returning_promise (fun _ => None) invalidateCache
  end.

Definition hooks (event : string) : option Handler :=
  if event =? "syncToS3:sync" then Some (run_operation Sync)
  else if event =? "before:remove:remove" then Some (run_operation Empty)
  else if event =? "emptyBucket:empty" then Some (run_operation Empty)
  else if event =? "domainInfo:domainInfo" then Some (run_operation DomainInfo)
  else if event =? "bucketInfo:bucketInfo" then Some (run_operation BucketInfo)
  else if event =? "invalidateCloudFrontCache:invalidateCache"
       then Some (run_operation InvalidateCache)
  else None.

(** An error reaches the caller of an operation when the promise it
    returned is rejected (no method of the plugin throws before returning). *)
Definition raises (r : Returned) : bool :=
  match r with
  | ReturnedPromise (Rejected _) => true
  | _ => false
  end.

End Plugin.

(** ** The specification's reading of the runner's invocation *)

(** A [flag value] pair when the value is set (a non-empty string), nothing
    otherwise. *)
Definition context_pair (flag : string) (value : option string) : list string :=
  match value with
  | Some v => if truthy v then [flag; v] else []
  | None => []
  end.

(** The tokens after the program name, as the specification lists them:
    the region pair, the profile pair, the caller's tokens. *)
Definition spec_invocation (region profile : option string)
  (tokens : list string) : list string :=
  context_pair "--region" region ++ context_pair "--profile" profile ++ tokens.

(** The host with other exit statuses for its child processes, the
    captured streams and the effect on the world unchanged. *)
Definition with_status {World} (status : World -> string -> list string -> Z)
  (h : Host World) : Host World :=
  mkHost (options_stage h) (options_region h)
    (provider_region h) (provider_profile h) (s3LocalPath h) (getStackName h)
    (describeStacks h) (listDistributions h)
    (fun w command args =>
       let '(r, w') := spawnSync h w command args in
       (mkSpawnResult (status w command args) (spawn_stdout r) (spawn_stderr r),
        w')).

(** The lines an info operation writes for an answer of the description
    request: one line, with the value or the placeholder, when the request
    and the callback of the resolver succeed; none otherwise. *)
Definition info_lines (label key : string)
  (answer : Outcome DescribeStacksResult) : list LogEntry :=
  match answer with
  | Fulfilled result =>
      match outputValueOf key result with
      | Fulfilled outputValue =>
          [LogString (label ++ or_else outputValue "Not Found")]
      | Rejected _ => []
      end
  | Rejected _ => []
  end.

(** The lines [runAwsCommand] writes for a captured stream: the text when
    there is some, nothing otherwise. *)
Definition stream_lines (text : string) : list LogEntry :=
  if truthy text then [LogString text] else [].

(** ** The commands the constructor declares

    [this.commands]: each command with its usage line and its lifecycle
    events, in the order of the source. *)

Record Command : Type := mkCommand {
  command_name : string;
  usage : string;
  lifecycleEvents : list string
}.

Definition commands : list Command :=
  [mkCommand "syncToS3"
     "Deploys the `s3LocalPath` directory to your bucket" ["sync"];
   mkCommand "emptyBucket" "Empties the deployed bucket" ["empty"];
   mkCommand "bucketInfo"
     "Fetches and prints out the deployed CloudFront bucket names"
     ["bucketInfo"];
   mkCommand "domainInfo"
     "Fetches and prints out the deployed CloudFront domain names"
     ["domainInfo"];
   mkCommand "invalidateCloudFrontCache" "Invalidates CloudFront cache"
     ["invalidateCache"]].

(** The key under which the framework looks up the hook of a command's
    lifecycle event: [command:event]. *)
Definition hook_key (command event : string) : string :=
  command ++ ":" ++ event.

(** The keys of [this.hooks], in the order of the source. *)
Definition hook_keys : list string :=
  ["syncToS3:sync"; "before:remove:remove"; "emptyBucket:empty";
   "domainInfo:domainInfo"; "bucketInfo:bucketInfo";
   "invalidateCloudFrontCache:invalidateCache"].

(** ** Words of a command line

    [spawnSync] under [{ shell: true }] hands the shell one line, the command
    and the arguments joined by single spaces.  The two definitions below say
    when that line still shows where each token ends. *)

(** The string holds no space. *)
Fixpoint space_free (s : string) : bool :=
  match s with
  | EmptyString => true
  | String c rest => negb (Ascii.eqb c " "%char) && space_free rest
  end.

(** [s.split(' ')]: the pieces of [s] between its spaces, the converse of
    [join(' ')]. *)
Fixpoint split_spaces (s : string) : list string :=
  match s with
  | EmptyString => [""]
  | String c rest =>
      if Ascii.eqb c " "%char then "" :: split_spaces rest
      else match split_spaces rest with
           | w :: ws => String c w :: ws
           | [] => [String c ""]
           end
  end.

(** ** Concrete hosts

    The world counts the interactions made so far; the answers are fixed. *)

Module Sample.

Definition host (region profile : option string)
  (described : Outcome DescribeStacksResult)
  (listed : Outcome ListDistributionsResult)
  (ran : SpawnResult) : Host nat :=
  mkHost (Some "dev") None region profile "app"
    (fun stage =>
       match stage with
       | Some s => "spa-" ++ s
       | None => "spa-undefined"
       end)
    (fun w _ _ _ => (described, S w))
    (fun w _ _ => (listed, S w))
    (fun w _ _ => (ran, S w)).

Definition start : State nat := mkState 0 [] [] [].

Definition stack (outputs : list Output) : Outcome DescribeStacksResult :=
  Fulfilled (mkDescribeStacksResult [mkStack outputs]).

Definition no_distributions : Outcome ListDistributionsResult :=
  Fulfilled (mkListDistributionsResult []).

Definition quiet : SpawnResult := mkSpawnResult 0 "" "".

Definition two_distributions : list Distribution :=
  [mkDistribution "E123" "d1.example.com";
   mkDistribution "E999" "other.com"].

End Sample.

(** ** Lists and strings *)

Section Find.
Context {A : Type}.
Variable f : A -> bool.

(** [find] returns the first element that passes the test. *)
Lemma find_first_match (before after : list A) (x : A) :
  (forall y, In y before -> f y = false) ->
  f x = true ->
  find f (before ++ x :: after) = Some x.
Proof.
  intros Hbefore Hx.
  induction before as [|y before IH]; simpl.
  - now rewrite Hx.
  - rewrite (Hbefore y) by now left.
    apply IH. intros z Hz. apply Hbefore. now right.
Qed.

(** [find] returns [undefined] when no element passes the test. *)
Lemma find_no_match (l : list A) :
  (forall y, In y l -> f y = false) -> find f l = None.
Proof.
  induction l as [|y l IH]; simpl; intros Hl.
  - reflexivity.
  - rewrite (Hl y) by now left.
    apply IH. intros z Hz. apply Hl. now right.
Qed.
End Find.

Lemma append_assoc (a b c : string) : ((a ++ b) ++ c = a ++ b ++ c)%string.
Proof.
  induction a as [|ch a IH]; simpl.
  - reflexivity.
  - now rewrite IH.
Qed.

(** Joining after gluing two tokens with a space is joining the two. *)
Lemma join_spaces_glue (a b : string) (l : list string) :
  join_spaces ((a ++ " " ++ b) :: l) = join_spaces (a :: b :: l).
Proof.
  unfold join_spaces.
  destruct l as [|c l]; simpl.
  - reflexivity.
  - now rewrite !append_assoc.
Qed.

Lemma truthy_true_iff (s : string) : truthy s = true <-> s <> "".
Proof.
  unfold truthy. rewrite negb_true_iff. apply String.eqb_neq.
Qed.

Lemma truthy_false_iff (s : string) : truthy s = false <-> s = "".
Proof.
  unfold truthy. rewrite negb_false_iff. apply String.eqb_eq.
Qed.

(** ** The monad *)

Section MonadFacts.
Context {World : Type}.

Lemma bind_fulfilled {A B} (p : M World A) (f : A -> M World B) st v st' :
  p st = (Fulfilled v, st') -> bind p f st = f v st'.
Proof. unfold bind. now intros ->. Qed.

Lemma bind_rejected {A B} (p : M World A) (f : A -> M World B) st e st' :
  p st = (Rejected e, st') -> bind p f st = (Rejected e, st').
Proof. unfold bind. now intros ->. Qed.

Lemma detach_fulfilled {A} (p : M World A) st v st' :
  p st = (Fulfilled v, st') -> detach p st = st'.
Proof. unfold detach. now intros ->. Qed.

Lemma detach_rejected {A} (p : M World A) st e st' :
  p st = (Rejected e, st') ->
  detach p st =
  mkState (world st') (log st') (spawned st') (unhandled st' ++ [e]).
Proof. unfold detach. now intros ->. Qed.
End MonadFacts.

(** ** The resolver *)

Section Resolver.
Context {World : Type}.
Variable h : Host World.

(** The request touches the world only. *)
Lemma stackDescription_frame st :
  let st' := snd (stackDescription h st) in
  log st' = log st /\ spawned st' = spawned st /\ unhandled st' = unhandled st.
Proof.
  unfold stackDescription, request_describeStacks.
  destruct (describeStacks h _ _ _ _) as [r w]. simpl. auto.
Qed.

(** A failed request rejects the resolver's promise with the same error. *)
Lemma getDescribeStacksOutput_request_failed key st e st1 :
  stackDescription h st = (Rejected e, st1) ->
  getDescribeStacksOutput h key st = (Rejected e, st1).
Proof.
  intros Hreq. unfold getDescribeStacksOutput.
  now rewrite (bind_rejected _ _ _ _ _ Hreq).
Qed.

(** A key of the first stack's outputs resolves to the value of the first
    output that carries it. *)
Lemma getDescribeStacksOutput_present key st result st1 before o after rest :
  stackDescription h st = (Fulfilled result, st1) ->
  Stacks result = mkStack (before ++ o :: after) :: rest ->
  (forall x, In x before -> OutputKey x <> key) ->
  OutputKey o = key ->
  getDescribeStacksOutput h key st = (Fulfilled (OutputValue o), st1).
Proof.
  intros Hreq Hstacks Hbefore Ho.
  unfold getDescribeStacksOutput.
  rewrite (bind_fulfilled _ _ _ _ _ Hreq).
  unfold settle, outputValueOf. rewrite Hstacks. simpl.
  rewrite find_first_match; [reflexivity | | ].
  - intros y Hy. apply String.eqb_neq. now apply Hbefore.
  - now apply String.eqb_eq.
Qed.

(** A key that no output carries makes the callback read [OutputValue] of
    [undefined]. *)
Lemma getDescribeStacksOutput_absent key st result st1 stack0 rest :
  stackDescription h st = (Fulfilled result, st1) ->
  Stacks result = stack0 :: rest ->
  (forall o, In o (Outputs stack0) -> OutputKey o <> key) ->
  getDescribeStacksOutput h key st = (Rejected (TypeError "OutputValue"), st1).
Proof.
  intros Hreq Hstacks Habsent.
  unfold getDescribeStacksOutput.
  rewrite (bind_fulfilled _ _ _ _ _ Hreq).
  unfold settle, outputValueOf. rewrite Hstacks.
  rewrite find_no_match; [reflexivity | ].
  intros y Hy. apply String.eqb_neq. now apply Habsent.
Qed.

(** The resolver writes no line, starts no process, and leaves its own
    rejection to its caller. *)
Lemma getDescribeStacksOutput_frame key st :
  let st' := snd (getDescribeStacksOutput h key st) in
  log st' = log st /\ spawned st' = spawned st /\ unhandled st' = unhandled st.
Proof.
  pose proof (stackDescription_frame st) as Hframe.
  unfold getDescribeStacksOutput, bind.
  destruct (stackDescription h st) as [[result|e] st1]; simpl in *; auto.
Qed.

(** What the resolver delivers is decided by the answer of the request. *)
Lemma getDescribeStacksOutput_answer key st :
  fst (getDescribeStacksOutput h key st)
  = match fst (stackDescription h st) with
    | Fulfilled result => outputValueOf key result
    | Rejected e => Rejected e
    end.
Proof.
  unfold getDescribeStacksOutput, bind, settle.
  destruct (stackDescription h st) as [[result|e] st1]; reflexivity.
Qed.
End Resolver.

(** C1.  The claim: for a key absent from the fetched description the
    resolver returns a NotFound value and does not throw.  The code differs:
    whenever the request succeeds and no output of the first stack carries
    the key, the promise of [getDescribeStacksOutput] is rejected with the
    TypeError of reading [OutputValue] on the [undefined] that [find]
    returned; no value is delivered. *)
Theorem getDescribeStacksOutput_absent_key_rejects
  {World} (h : Host World) key st result st1 stack0 rest :
  stackDescription h st = (Fulfilled result, st1) ->
  Stacks result = stack0 :: rest ->
  (forall o, In o (Outputs stack0) -> OutputKey o <> key) ->
  fst (getDescribeStacksOutput h key st) = Rejected (TypeError "OutputValue")
  /\ forall v, fst (getDescribeStacksOutput h key st) <> Fulfilled v.
Proof.
  intros Hreq Hstacks Habsent.
  rewrite (getDescribeStacksOutput_absent h key st result st1 stack0 rest)
    by assumption.
  simpl. split; [reflexivity | discriminate].
Qed.

(** The stack has no output at all and the bucket's key is asked for. *)
Lemma getDescribeStacksOutput_absent_key_rejects_witness :
  let h := Sample.host None None (Sample.stack []) Sample.no_distributions
             Sample.quiet in
  fst (getDescribeStacksOutput h "WebAppS3BucketOutput" Sample.start)
  = Rejected (TypeError "OutputValue")
  /\ forall v,
       fst (getDescribeStacksOutput h "WebAppS3BucketOutput" Sample.start)
       <> Fulfilled v.
Proof.
  intro h.
  apply (getDescribeStacksOutput_absent_key_rejects h "WebAppS3BucketOutput"
           Sample.start (mkDescribeStacksResult [mkStack []])
           (mkState 1 [] [] []) (mkStack []) []).
  - reflexivity.
  - reflexivity.
  - simpl. intros o [].
Defined.

(** ** The runner *)

Section Runner.
Context {World : Type}.
Variable h : Host World.

Lemma join_spaces_flag (c flag v : string) (l : list string) :
  join_spaces ((c ++ " " ++ flag ++ " " ++ v) :: l)
  = join_spaces (c :: flag :: v :: l).
Proof.
  rewrite join_spaces_glue.
  change (join_spaces (c :: (flag ++ " " ++ v) :: l))
    with (c ++ " " ++ join_spaces ((flag ++ " " ++ v) :: l)).
  now rewrite join_spaces_glue.
Qed.

(** The command string and the arguments, joined as the shell receives
    them, are the program name followed by the specification's tokens. *)
Lemma awsCommand_line (tokens : list string) :
  join_spaces (awsCommand h :: tokens)
  = join_spaces
      ("aws" :: spec_invocation (provider_region h) (provider_profile h) tokens).
Proof.
  unfold awsCommand, spec_invocation, context_pair.
  destruct (provider_region h) as [region|];
    destruct (provider_profile h) as [profile|];
    try destruct (truthy region); try destruct (truthy profile);
    try reflexivity.
  - change (join_spaces
              ((("aws" ++ " " ++ "--region" ++ " " ++ region)
                ++ " " ++ "--profile" ++ " " ++ profile) :: tokens)
            = join_spaces
                ("aws" :: "--region" :: region :: "--profile" :: profile
                 :: tokens)).
    now rewrite !join_spaces_flag.
  - change (join_spaces (("aws" ++ " " ++ "--region" ++ " " ++ region) :: tokens)
            = join_spaces ("aws" :: "--region" :: region :: tokens)).
    now rewrite join_spaces_flag.
  - change (join_spaces
              (("aws" ++ " " ++ "--profile" ++ " " ++ profile) :: tokens)
            = join_spaces ("aws" :: "--profile" :: profile :: tokens)).
    now rewrite join_spaces_flag.
  - change (join_spaces (("aws" ++ " " ++ "--region" ++ " " ++ region) :: tokens)
            = join_spaces ("aws" :: "--region" :: region :: tokens)).
    now rewrite join_spaces_flag.
  - change (join_spaces
              (("aws" ++ " " ++ "--profile" ++ " " ++ profile) :: tokens)
            = join_spaces ("aws" :: "--profile" :: profile :: tokens)).
    now rewrite join_spaces_flag.
Qed.

(** One run of [runAwsCommand]: one child process, the two streams
    written when they are not empty, both returned. *)
Lemma runAwsCommand_run (args : list string) st :
  runAwsCommand h args st
  = let '(ran, w) := spawnSync h (world st) (awsCommand h) args in
    (Fulfilled (mkRunResult (spawn_stdout ran) (spawn_stderr ran)),
     mkState w
       (log st ++ stream_lines (spawn_stdout ran)
               ++ stream_lines (spawn_stderr ran))
       (spawned st ++ [mkInvocation (awsCommand h) args])
       (unhandled st)).
Proof.
  unfold runAwsCommand, spawn, bind, when, cli_log, ret, stream_lines.
  destruct (spawnSync h (world st) (awsCommand h) args) as [ran w].
  destruct (truthy (spawn_stdout ran)), (truthy (spawn_stderr ran)); simpl;
    rewrite ?app_nil_r, <- ?app_assoc; reflexivity.
Qed.

End Runner.

Section ExitStatus.
Context {World : Type}.
Variable h : Host World.
Variable status : World -> string -> list string -> Z.

(** The exit status of the child process does not reach the runner. *)
Lemma runAwsCommand_with_status (args : list string) st :
  runAwsCommand (with_status status h) args st = runAwsCommand h args st.
Proof.
  rewrite !runAwsCommand_run.
  change (awsCommand (with_status status h)) with (awsCommand h).
  simpl. destruct (spawnSync h (world st) (awsCommand h) args) as [ran w].
  reflexivity.
Qed.

(** Nor does it reach any operation. *)
Lemma run_operation_with_status (op : Operation) st :
  run_operation (with_status status h) op st = run_operation h op st.
Proof.
  destruct op; simpl;
    unfold returning_undefined, returning_promise,
      syncDirectory, emptyBucket, bucketInfo, invalidateCache, domainInfo,
      detach, bind;
    change (getDescribeStacksOutput (with_status status h))
      with (getDescribeStacksOutput h);
    change (request_listDistributions (with_status status h))
      with (request_listDistributions h);
    try reflexivity.
  - destruct (getDescribeStacksOutput h _ st) as [[bucket|e] st1];
      [|reflexivity].
    change (syncArgs (with_status status h) bucket) with (syncArgs h bucket).
    destruct (cli_log _ st1) as [[[]|e] st2]; [|reflexivity].
    now rewrite runAwsCommand_with_status.
  - destruct (getDescribeStacksOutput h _ st) as [[bucket|e] st1];
      [|reflexivity].
    now rewrite runAwsCommand_with_status.
  - destruct (getDescribeStacksOutput h _ st) as [[domain|e] st1];
      [|reflexivity].
    destruct (cli_log _ st1) as [[[]|e] st2]; [|reflexivity].
    destruct (ret domain st2) as [[domain'|e] st3]; [|reflexivity].
    destruct (request_listDistributions h st3) as [[result|e] st4];
      [|reflexivity].
    destruct (find _ (Items result)) as [distribution|]; [|reflexivity].
    destruct (cli_log _ st4) as [[[]|e] st5]; [|reflexivity].
    now rewrite runAwsCommand_with_status.
Qed.
End ExitStatus.

(** When both are set, the specification's tokens are the region pair, the
    profile pair and the caller's tokens. *)
Lemma spec_invocation_both_set (region profile : string) (tokens : list string) :
  region <> "" -> profile <> "" ->
  spec_invocation (Some region) (Some profile) tokens
  = "--region" :: region :: "--profile" :: profile :: tokens.
Proof.
  intros Hr Hp. unfold spec_invocation, context_pair.
  apply truthy_true_iff in Hr, Hp. now rewrite Hr, Hp.
Qed.

(** The example of the specification: region us-east-1, profile p. *)
Example spec_invocation_example :
  let h := Sample.host (Some "us-east-1") (Some "p") (Sample.stack [])
             Sample.no_distributions Sample.quiet in
  map command_line
    (spawned (snd (runAwsCommand h ["s3"; "sync"; "a"; "b"] Sample.start)))
  = [join_spaces
       ["aws"; "--region"; "us-east-1"; "--profile"; "p"; "s3"; "sync"; "a"; "b"]].
Proof. reflexivity. Qed.

(** [runAwsCommand] starts exactly one child process; its arguments are
    the caller's tokens, unchanged, and the line the shell receives is the
    join of the program name [aws], the region pair when the region is set,
    the profile pair when the profile is set, and the tokens. *)
Lemma runAwsCommand_shell_line
  {World} (h : Host World) (tokens : list string) st :
  exists i,
    spawned (snd (runAwsCommand h tokens st)) = (spawned st ++ [i])%list
    /\ inv_args i = tokens
    /\ command_line i
       = join_spaces
           ("aws"
            :: spec_invocation (provider_region h) (provider_profile h) tokens).
Proof.
  exists (mkInvocation (awsCommand h) tokens).
  rewrite runAwsCommand_run.
  destruct (spawnSync h (world st) (awsCommand h) tokens) as [ran w]. simpl.
  repeat split.
  unfold command_line. simpl. apply awsCommand_line.
Qed.

(** Splitting at spaces undoes the join of tokens that hold no space. *)
Lemma split_spaces_space_free (w : string) :
  space_free w = true -> split_spaces w = [w].
Proof.
  induction w as [|c w IH]; simpl; [reflexivity|].
  intros Hfree. apply andb_true_iff in Hfree. destruct Hfree as [Hc Hw].
  apply negb_true_iff in Hc. rewrite Hc, (IH Hw). reflexivity.
Qed.

Lemma split_spaces_after_word (w s : string) :
  space_free w = true ->
  split_spaces (w ++ String " "%char s) = w :: split_spaces s.
Proof.
  induction w as [|c w IH]; simpl; [reflexivity|].
  intros Hfree. apply andb_true_iff in Hfree. destruct Hfree as [Hc Hw].
  apply negb_true_iff in Hc. rewrite Hc, (IH Hw). reflexivity.
Qed.

Lemma split_spaces_join (l : list string) (w : string) :
  forallb space_free (w :: l) = true ->
  split_spaces (join_spaces (w :: l)) = w :: l.
Proof.
  revert w. induction l as [|x l IH]; intros w Hfree;
    simpl in Hfree; apply andb_true_iff in Hfree; destruct Hfree as [Hw Hl].
  - apply split_spaces_space_free. exact Hw.
  - change (join_spaces (w :: x :: l))
      with (w ++ String " "%char (join_spaces (x :: l))).
    rewrite (split_spaces_after_word _ _ Hw).
    now rewrite (IH x Hl).
Qed.

(** C2, the claim as stated fails.  With region and profile both set, the
    caller's tokens [s3 sync "dist dir" s3://b/] (four tokens) and
    [s3 sync dist dir s3://b/] (five) give one and the same line to the
    shell, so nothing that reads the line, the shell included, can return the
    caller's sequence of tokens in both cases. *)
Lemma final_invocation_token_sequence_counterexample :
  ~ (exists words : string -> list string,
       forall (h : Host nat) (tokens : list string) (st : State nat) i,
         truthy_opt (provider_region h) = true ->
         truthy_opt (provider_profile h) = true ->
         spawned (snd (runAwsCommand h tokens st)) = (spawned st ++ [i])%list ->
         words (command_line i)
         = "aws"
           :: spec_invocation (provider_region h) (provider_profile h) tokens).
Proof.
  intros [words Hclaim].
  pose (h := Sample.host (Some "us-east-1") (Some "p") (Sample.stack [])
               Sample.no_distributions Sample.quiet).
  pose proof (Hclaim h ["s3"; "sync"; "dist dir"; "s3://b/"] Sample.start
                (mkInvocation "aws --region us-east-1 --profile p"
                   ["s3"; "sync"; "dist dir"; "s3://b/"])
                eq_refl eq_refl eq_refl) as Hfour.
  pose proof (Hclaim h ["s3"; "sync"; "dist"; "dir"; "s3://b/"] Sample.start
                (mkInvocation "aws --region us-east-1 --profile p"
                   ["s3"; "sync"; "dist"; "dir"; "s3://b/"])
                eq_refl eq_refl eq_refl) as Hfive.
  change (command_line
            (mkInvocation "aws --region us-east-1 --profile p"
               ["s3"; "sync"; "dist"; "dir"; "s3://b/"]))
    with (command_line
            (mkInvocation "aws --region us-east-1 --profile p"
               ["s3"; "sync"; "dist dir"; "s3://b/"])) in Hfive.
  rewrite Hfour in Hfive. discriminate Hfive.
Qed.

(** C2, amended.  [runAwsCommand] starts exactly one child process, with
    the caller's tokens, unchanged and in order, as its arguments; the line
    the shell receives is the join by single spaces of [aws], the region
    pair when the region is set, the profile pair when the profile is set,
    and the tokens, in this order.  When neither the region, the profile nor
    any token holds a space, splitting that line at its spaces gives back
    exactly that sequence. *)
Theorem runAwsCommand_invocation_line_and_words
  {World} (h : Host World) (tokens : list string) st :
  exists i,
    spawned (snd (runAwsCommand h tokens st)) = (spawned st ++ [i])%list
    /\ inv_args i = tokens
    /\ command_line i
       = join_spaces
           ("aws"
            :: spec_invocation (provider_region h) (provider_profile h) tokens)
    /\ (forallb space_free
          (spec_invocation (provider_region h) (provider_profile h) tokens)
        = true ->
        split_spaces (command_line i)
        = "aws"
          :: spec_invocation (provider_region h) (provider_profile h) tokens).
Proof.
  destruct (runAwsCommand_shell_line h tokens st) as (i & Hsp & Hargs & Hline).
  exists i. repeat split; auto.
  intros Hfree. rewrite Hline. apply split_spaces_join.
  simpl. exact Hfree.
Qed.

(** The example of the specification: region us-east-1, profile p and the
    tokens s3, sync, a, b. *)
Lemma runAwsCommand_invocation_line_and_words_witness :
  let h := Sample.host (Some "us-east-1") (Some "p") (Sample.stack [])
             Sample.no_distributions Sample.quiet in
  exists i,
    spawned (snd (runAwsCommand h ["s3"; "sync"; "a"; "b"] Sample.start))
    = [i]
    /\ inv_args i = ["s3"; "sync"; "a"; "b"]
    /\ split_spaces (command_line i)
       = ["aws"; "--region"; "us-east-1"; "--profile"; "p";
          "s3"; "sync"; "a"; "b"].
Proof.
  intro h.
  destruct (runAwsCommand_invocation_line_and_words h ["s3"; "sync"; "a"; "b"]
              Sample.start) as (i & Hsp & Hargs & _ & Hwords).
  exists i. split; [exact Hsp|]. split; [exact Hargs|].
  apply Hwords. reflexivity.
Defined.

(** C3.  The value [runAwsCommand] returns passes the callers' test
    [!sterr] exactly when the captured standard error is the empty string,
    and neither the runner nor any operation changes when the child
    processes exit with other statuses. *)
Theorem runAwsCommand_verdict_is_empty_stderr
  {World} (h : Host World) (args : list string) st :
  let ran := fst (spawnSync h (world st) (awsCommand h) args) in
  exists r,
    fst (runAwsCommand h args st) = Fulfilled r
    /\ (succeeded r = true <-> spawn_stderr ran = "")
    /\ (succeeded r = false <-> spawn_stderr ran <> "")
    /\ (forall status,
          runAwsCommand (with_status status h) args st
          = runAwsCommand h args st)
    /\ (forall status op st',
          run_operation (with_status status h) op st'
          = run_operation h op st').
Proof.
  intros ran. subst ran.
  pose proof (runAwsCommand_run h args st) as Hrun.
  destruct (spawnSync h (world st) (awsCommand h) args) as [ran w]. simpl.
  exists (mkRunResult (spawn_stdout ran) (spawn_stderr ran)).
  split; [now rewrite Hrun|]. unfold succeeded. simpl.
  split; [|split; [|split]].
  - rewrite negb_true_iff. apply truthy_false_iff.
  - rewrite negb_false_iff. apply truthy_true_iff.
  - intros status. apply runAwsCommand_with_status.
  - intros status op st'. apply run_operation_with_status.
Qed.

(** ** The info operations *)

Section Info.
Context {World : Type}.
Variable h : Host World.

(** [bucketInfo] after the resolver delivered a value: one line. *)
Lemma bucketInfo_fulfilled st outputValue st1 :
  getDescribeStacksOutput h "WebAppS3BucketOutput" st
  = (Fulfilled outputValue, st1) ->
  bucketInfo h st
  = mkState (world st1)
      (log st1
       ++ [LogString ("Web App Bucket: " ++ or_else outputValue "Not Found")])
      (spawned st1) (unhandled st1).
Proof.
  intros Hres. unfold bucketInfo.
  apply detach_fulfilled with (v := tt).
  now rewrite (bind_fulfilled _ _ _ _ _ Hres).
Qed.

(** [bucketInfo] after the resolver's promise was rejected: no line, and
    the rejection is left unhandled. *)
Lemma bucketInfo_rejected st e st1 :
  getDescribeStacksOutput h "WebAppS3BucketOutput" st = (Rejected e, st1) ->
  bucketInfo h st
  = mkState (world st1) (log st1) (spawned st1) (unhandled st1 ++ [e]).
Proof.
  intros Hres. unfold bucketInfo.
  apply detach_rejected.
  now rewrite (bind_rejected _ _ _ _ _ Hres).
Qed.

Lemma domainInfo_fulfilled st outputValue st1 :
  getDescribeStacksOutput h "WebAppCloudFrontDistributionOutput" st
  = (Fulfilled outputValue, st1) ->
  domainInfo h st
  = (Fulfilled outputValue,
     mkState (world st1)
       (log st1
        ++ [LogString ("Web App Domain: " ++ or_else outputValue "Not Found")])
       (spawned st1) (unhandled st1)).
Proof.
  intros Hres. unfold domainInfo.
  now rewrite (bind_fulfilled _ _ _ _ _ Hres).
Qed.

Lemma domainInfo_rejected st e st1 :
  getDescribeStacksOutput h "WebAppCloudFrontDistributionOutput" st
  = (Rejected e, st1) ->
  domainInfo h st = (Rejected e, st1).
Proof.
  intros Hres. unfold domainInfo.
  now rewrite (bind_rejected _ _ _ _ _ Hres).
Qed.

(** The lines of [bucketInfo] are those of the request's answer. *)
Lemma bucketInfo_log st :
  log (bucketInfo h st)
  = (log st
     ++ info_lines "Web App Bucket: " "WebAppS3BucketOutput"
          (fst (stackDescription h st)))%list.
Proof.
  pose proof (getDescribeStacksOutput_answer h "WebAppS3BucketOutput" st) as Hans.
  pose proof (getDescribeStacksOutput_frame h "WebAppS3BucketOutput" st) as Hfr.
  destruct (getDescribeStacksOutput h "WebAppS3BucketOutput" st)
    as [[v|e] st1] eqn:Hres; simpl in Hans, Hfr;
    destruct Hfr as (Hlog & _ & _).
  - rewrite (bucketInfo_fulfilled _ _ _ Hres). simpl. rewrite Hlog.
    unfold info_lines.
    destruct (fst (stackDescription h st)) as [result|e]; [|discriminate].
    now rewrite <- Hans.
  - rewrite (bucketInfo_rejected _ _ _ Hres). simpl. rewrite Hlog.
    unfold info_lines.
    destruct (fst (stackDescription h st)) as [result|e'].
    + rewrite <- Hans. now rewrite app_nil_r.
    + now rewrite app_nil_r.
Qed.

(** So are the lines of [domainInfo]. *)
Lemma domainInfo_log st :
  log (snd (domainInfo h st))
  = (log st
     ++ info_lines "Web App Domain: " "WebAppCloudFrontDistributionOutput"
          (fst (stackDescription h st)))%list.
Proof.
  pose proof (getDescribeStacksOutput_answer h
                "WebAppCloudFrontDistributionOutput" st) as Hans.
  pose proof (getDescribeStacksOutput_frame h
                "WebAppCloudFrontDistributionOutput" st) as Hfr.
  destruct (getDescribeStacksOutput h "WebAppCloudFrontDistributionOutput" st)
    as [[v|e] st1] eqn:Hres; simpl in Hans, Hfr;
    destruct Hfr as (Hlog & _ & _).
  - rewrite (domainInfo_fulfilled _ _ _ Hres). simpl. rewrite Hlog.
    unfold info_lines.
    destruct (fst (stackDescription h st)) as [result|e]; [|discriminate].
    now rewrite <- Hans.
  - rewrite (domainInfo_rejected _ _ _ Hres). simpl. rewrite Hlog.
    unfold info_lines.
    destruct (fst (stackDescription h st)) as [result|e'].
    + rewrite <- Hans. now rewrite app_nil_r.
    + now rewrite app_nil_r.
Qed.

(** [domainInfo] starts no process and leaves no rejection behind: its
    promise goes to the caller. *)
Lemma domainInfo_frame st :
  spawned (snd (domainInfo h st)) = spawned st
  /\ unhandled (snd (domainInfo h st)) = unhandled st.
Proof.
  pose proof (getDescribeStacksOutput_frame h
                "WebAppCloudFrontDistributionOutput" st) as Hfr.
  destruct (getDescribeStacksOutput h "WebAppCloudFrontDistributionOutput" st)
    as [[v|e] st1] eqn:Hres; simpl in Hfr; destruct Hfr as (_ & Hsp & Hun).
  - rewrite (domainInfo_fulfilled _ _ _ Hres). simpl. auto.
  - rewrite (domainInfo_rejected _ _ _ Hres). simpl. auto.
Qed.

(** The placeholder is written for a value that is the empty string. *)
Lemma bucketInfo_empty_value st st1 :
  getDescribeStacksOutput h "WebAppS3BucketOutput" st = (Fulfilled "", st1) ->
  log (bucketInfo h st)
  = (log st ++ [LogString "Web App Bucket: Not Found"])%list.
Proof.
  intros Hres.
  pose proof (getDescribeStacksOutput_frame h "WebAppS3BucketOutput" st) as Hfr.
  rewrite Hres in Hfr. simpl in Hfr. destruct Hfr as (Hlog & _ & _).
  rewrite (bucketInfo_fulfilled _ _ _ Hres). simpl. now rewrite Hlog.
Qed.
End Info.

(** C6.  The claim: when the required output key is absent, BucketInfo and
    DomainInfo write the placeholder "Not Found".  The code differs: the
    resolver's promise is rejected before the callback that formats the line
    runs, so neither operation writes anything; BucketInfo leaves the
    TypeError unhandled and DomainInfo hands it to its caller. *)
Theorem info_absent_key_logs_nothing
  {World} (h : Host World) st result st1 stack0 rest :
  stackDescription h st = (Fulfilled result, st1) ->
  Stacks result = stack0 :: rest ->
  (forall o, In o (Outputs stack0) ->
             OutputKey o <> "WebAppS3BucketOutput"
             /\ OutputKey o <> "WebAppCloudFrontDistributionOutput") ->
  log (bucketInfo h st) = log st
  /\ unhandled (bucketInfo h st)
     = (unhandled st ++ [TypeError "OutputValue"])%list
  /\ log (snd (domainInfo h st)) = log st
  /\ fst (domainInfo h st) = Rejected (TypeError "OutputValue").
Proof.
  intros Hreq Hstacks Habsent.
  pose proof (stackDescription_frame h st) as Hfr.
  rewrite Hreq in Hfr. simpl in Hfr. destruct Hfr as (Hlog & _ & Hun).
  assert (Hbucket :
            getDescribeStacksOutput h "WebAppS3BucketOutput" st
            = (Rejected (TypeError "OutputValue"), st1)).
  { apply (getDescribeStacksOutput_absent h _ st result st1 stack0 rest);
      auto. intros o Ho. now apply Habsent. }
  assert (Hdomain :
            getDescribeStacksOutput h "WebAppCloudFrontDistributionOutput" st
            = (Rejected (TypeError "OutputValue"), st1)).
  { apply (getDescribeStacksOutput_absent h _ st result st1 stack0 rest);
      auto. intros o Ho. now apply Habsent. }
  rewrite (bucketInfo_rejected h _ _ _ Hbucket).
  rewrite (domainInfo_rejected h _ _ _ Hdomain). simpl.
  rewrite Hlog, Hun. auto.
Qed.

(** A stack whose only output is some other key. *)
Lemma info_absent_key_logs_nothing_witness :
  let h := Sample.host None None
             (Sample.stack [mkOutput "ServiceEndpoint" "https://api"])
             Sample.no_distributions Sample.quiet in
  log (bucketInfo h Sample.start) = []
  /\ unhandled (bucketInfo h Sample.start) = [TypeError "OutputValue"]
  /\ log (snd (domainInfo h Sample.start)) = []
  /\ fst (domainInfo h Sample.start) = Rejected (TypeError "OutputValue").
Proof.
  intro h.
  apply (info_absent_key_logs_nothing h Sample.start
           (mkDescribeStacksResult
              [mkStack [mkOutput "ServiceEndpoint" "https://api"]])
           (mkState 1 [] [] [])
           (mkStack [mkOutput "ServiceEndpoint" "https://api"]) []).
  - reflexivity.
  - reflexivity.
  - simpl. intros o [<-|[]]. split; discriminate.
Defined.

(** C8.  When the description request gives the same answer at both
    invocations, two invocations of BucketInfo in sequence write the same
    lines, and so do two invocations of DomainInfo, whose promises also
    settle alike. *)
Theorem info_twice_same_output {World} (h : Host World) st :
  (fst (stackDescription h (bucketInfo h st)) = fst (stackDescription h st) ->
   exists lines,
     log (bucketInfo h st) = (log st ++ lines)%list
     /\ log (bucketInfo h (bucketInfo h st))
        = (log (bucketInfo h st) ++ lines)%list)
  /\ (fst (stackDescription h (snd (domainInfo h st)))
      = fst (stackDescription h st) ->
      exists lines,
        log (snd (domainInfo h st)) = (log st ++ lines)%list
        /\ log (snd (domainInfo h (snd (domainInfo h st))))
           = (log (snd (domainInfo h st)) ++ lines)%list
        /\ fst (domainInfo h (snd (domainInfo h st))) = fst (domainInfo h st)).
Proof.
  split; intros Hsame.
  - exists (info_lines "Web App Bucket: " "WebAppS3BucketOutput"
              (fst (stackDescription h st))).
    split; [apply bucketInfo_log|].
    rewrite (bucketInfo_log h (bucketInfo h st)). now rewrite Hsame.
  - exists (info_lines "Web App Domain: " "WebAppCloudFrontDistributionOutput"
              (fst (stackDescription h st))).
    split; [apply domainInfo_log|].
    split.
    + rewrite (domainInfo_log h (snd (domainInfo h st))). now rewrite Hsame.
    + pose proof (getDescribeStacksOutput_answer h
                    "WebAppCloudFrontDistributionOutput") as Hans.
      assert (Hfst : forall s,
                 fst (domainInfo h s)
                 = fst (getDescribeStacksOutput h
                          "WebAppCloudFrontDistributionOutput" s)).
      { intros s.
        destruct (getDescribeStacksOutput h
                    "WebAppCloudFrontDistributionOutput" s)
          as [[v|e] s1] eqn:Hres.
        - now rewrite (domainInfo_fulfilled h _ _ _ Hres).
        - now rewrite (domainInfo_rejected h _ _ _ Hres). }
      rewrite !Hfst, !Hans. now rewrite Hsame.
Qed.

(** A stack with both outputs, described the same way at every request. *)
Lemma info_twice_same_output_witness :
  let h := Sample.host None None
             (Sample.stack
                [mkOutput "WebAppS3BucketOutput" "my-bucket";
                 mkOutput "WebAppCloudFrontDistributionOutput" "d1.example.com"])
             Sample.no_distributions Sample.quiet in
  (exists lines,
      log (bucketInfo h Sample.start) = (log Sample.start ++ lines)%list
      /\ log (bucketInfo h (bucketInfo h Sample.start))
         = (log (bucketInfo h Sample.start) ++ lines)%list)
  /\ (exists lines,
        log (snd (domainInfo h Sample.start)) = (log Sample.start ++ lines)%list
        /\ log (snd (domainInfo h (snd (domainInfo h Sample.start))))
           = (log (snd (domainInfo h Sample.start)) ++ lines)%list
        /\ fst (domainInfo h (snd (domainInfo h Sample.start)))
           = fst (domainInfo h Sample.start)).
Proof.
  intro h.
  destruct (info_twice_same_output h Sample.start) as [Hbucket Hdomain].
  split.
  - apply Hbucket. reflexivity.
  - apply Hdomain. reflexivity.
Defined.

(** ** Cache invalidation *)

Section Invalidation.
Context {World : Type}.
Variable h : Host World.

(** The listing request touches the world only. *)
Lemma request_listDistributions_frame st :
  let st' := snd (request_listDistributions h st) in
  log st' = log st /\ spawned st' = spawned st /\ unhandled st' = unhandled st.
Proof.
  unfold request_listDistributions.
  destruct (listDistributions h _ _ _) as [r w]. simpl. auto.
Qed.

(** No process has been started when the listing arrives. *)
Lemma spawned_before_matching st domain st1 result st2 :
  domainInfo h st = (Fulfilled domain, st1) ->
  request_listDistributions h st1 = (Fulfilled result, st2) ->
  spawned st2 = spawned st.
Proof.
  intros Hdom Hlist.
  pose proof (domainInfo_frame h st) as [Hsp _].
  pose proof (request_listDistributions_frame st1) as (_ & Hsp' & _).
  rewrite Hdom in Hsp. rewrite Hlist in Hsp'. simpl in *. congruence.
Qed.

(** The branch of [invalidateCache] for a distribution that [find]
    returned. *)
Lemma invalidateCache_matched st domain st1 result st2 distribution :
  domainInfo h st = (Fulfilled domain, st1) ->
  request_listDistributions h st1 = (Fulfilled result, st2) ->
  find (fun entry => DomainName entry =? domain) (Items result)
  = Some distribution ->
  invalidateCache h st
  = (r <- (cli_log (LogString ("Invalidating CloudFront distribution with id: "
                               ++ Id distribution)) ;;
           runAwsCommand h (invalidationArgs (Id distribution))) ;;
     if succeeded r
     then cli_log (LogString "Successfully invalidated CloudFront cache")
     else throw (PlainError "Failed invalidating CloudFront cache")) st2.
Proof.
  intros Hdom Hlist Hfind. unfold invalidateCache.
  rewrite (bind_fulfilled _ _ _ _ _ Hdom).
  rewrite (bind_fulfilled _ _ _ _ _ Hlist).
  rewrite Hfind. reflexivity.
Qed.

(** The branch for [undefined]: the message is written and thrown. *)
Lemma invalidateCache_unmatched st domain st1 result st2 :
  domainInfo h st = (Fulfilled domain, st1) ->
  request_listDistributions h st1 = (Fulfilled result, st2) ->
  find (fun entry => DomainName entry =? domain) (Items result) = None ->
  invalidateCache h st
  = (Rejected
       (PlainError ("Could not find distribution with domain " ++ domain)),
     mkState (world st2)
       (log st2
        ++ [LogString ("Could not find distribution with domain " ++ domain)])
       (spawned st2) (unhandled st2)).
Proof.
  intros Hdom Hlist Hfind. unfold invalidateCache.
  rewrite (bind_fulfilled _ _ _ _ _ Hdom).
  rewrite (bind_fulfilled _ _ _ _ _ Hlist).
  rewrite Hfind. reflexivity.
Qed.
End Invalidation.

(** C4.  With the domain resolved and the listing received, [find] returns
    the first distribution whose [DomainName] equals the domain, and the one
    child process [invalidateCache] starts carries that distribution's [Id]
    right after [--distribution-id]. *)
Theorem invalidateCache_targets_first_match
  {World} (h : Host World) st domain st1 result st2 before d after :
  domainInfo h st = (Fulfilled domain, st1) ->
  request_listDistributions h st1 = (Fulfilled result, st2) ->
  Items result = (before ++ d :: after)%list ->
  (forall x, In x before -> DomainName x <> domain) ->
  DomainName d = domain ->
  find (fun entry => DomainName entry =? domain) (Items result) = Some d
  /\ spawned (snd (invalidateCache h st))
     = (spawned st
        ++ [mkInvocation (awsCommand h)
              ["cloudfront"; "create-invalidation"; "--distribution-id"; Id d;
               "--paths"; quotedAllPaths]])%list.
Proof.
  intros Hdom Hlist Hitems Hbefore Hd.
  assert (Hfind :
            find (fun entry => DomainName entry =? domain) (Items result)
            = Some d).
  { rewrite Hitems. apply find_first_match.
    - intros y Hy. apply String.eqb_neq. now apply Hbefore.
    - now apply String.eqb_eq. }
  split; [exact Hfind|].
  rewrite (invalidateCache_matched h _ _ _ _ _ _ Hdom Hlist Hfind).
  rewrite <- (spawned_before_matching h _ _ _ _ _ Hdom Hlist).
  unfold bind at 1. unfold bind at 1. unfold cli_log at 1.
  rewrite runAwsCommand_run. simpl.
  destruct (spawnSync h (world st2) (awsCommand h) (invalidationArgs (Id d)))
    as [ran w].
  unfold succeeded. simpl.
  destruct (truthy (spawn_stderr ran)); reflexivity.
Qed.

(** The example of the specification: the domain is d1.example.com and the
    listing holds E123 for it and E999 for other.com. *)
Lemma invalidateCache_targets_first_match_witness :
  let h := Sample.host None None
             (Sample.stack
                [mkOutput "WebAppCloudFrontDistributionOutput" "d1.example.com"])
             (Fulfilled (mkListDistributionsResult Sample.two_distributions))
             Sample.quiet in
  find (fun entry => DomainName entry =? "d1.example.com")
    Sample.two_distributions
  = Some (mkDistribution "E123" "d1.example.com")
  /\ spawned (snd (invalidateCache h Sample.start))
     = [mkInvocation "aws"
          ["cloudfront"; "create-invalidation"; "--distribution-id"; "E123";
           "--paths"; quotedAllPaths]].
Proof.
  intro h.
  apply (invalidateCache_targets_first_match h Sample.start "d1.example.com"
           (mkState 1 [LogString "Web App Domain: d1.example.com"] [] [])
           (mkListDistributionsResult Sample.two_distributions)
           (mkState 2 [LogString "Web App Domain: d1.example.com"] [] [])
           [] (mkDistribution "E123" "d1.example.com")
           [mkDistribution "E999" "other.com"]).
  - reflexivity.
  - reflexivity.
  - reflexivity.
  - intros x [].
  - reflexivity.
Defined.

(** C5.  With the domain resolved and no distribution of the listing
    carrying it, the promise of [invalidateCache] is rejected with an error
    whose message ends with the domain, the same message is written to the
    log, and no child process is started. *)
Theorem invalidateCache_unmatched_raises
  {World} (h : Host World) st domain st1 result st2 :
  domainInfo h st = (Fulfilled domain, st1) ->
  request_listDistributions h st1 = (Fulfilled result, st2) ->
  (forall x, In x (Items result) -> DomainName x <> domain) ->
  fst (invalidateCache h st)
  = Rejected (PlainError ("Could not find distribution with domain " ++ domain))
  /\ raises (fst (run_operation h InvalidateCache st)) = true
  /\ spawned (snd (invalidateCache h st)) = spawned st
  /\ log (snd (invalidateCache h st))
     = (log st1
        ++ [LogString ("Could not find distribution with domain " ++ domain)])%list.
Proof.
  intros Hdom Hlist Hnone.
  assert (Hfind :
            find (fun entry => DomainName entry =? domain) (Items result) = None).
  { apply find_no_match. intros y Hy. apply String.eqb_neq. now apply Hnone. }
  pose proof (invalidateCache_unmatched h _ _ _ _ _ Hdom Hlist Hfind) as Hrun.
  pose proof (spawned_before_matching h _ _ _ _ _ Hdom Hlist) as Hsp.
  pose proof (request_listDistributions_frame h st1) as (Hlog & _ & _).
  rewrite Hlist in Hlog. simpl in Hlog.
  simpl. unfold returning_promise. rewrite Hrun. simpl.
  rewrite Hsp, Hlog. auto.
Qed.

(** The domain is d1.example.com and the listing holds other.com only. *)
Lemma invalidateCache_unmatched_raises_witness :
  let h := Sample.host None None
             (Sample.stack
                [mkOutput "WebAppCloudFrontDistributionOutput" "d1.example.com"])
             (Fulfilled
                (mkListDistributionsResult [mkDistribution "E999" "other.com"]))
             Sample.quiet in
  fst (invalidateCache h Sample.start)
  = Rejected
      (PlainError "Could not find distribution with domain d1.example.com")
  /\ raises (fst (run_operation h InvalidateCache Sample.start)) = true
  /\ spawned (snd (invalidateCache h Sample.start)) = []
  /\ log (snd (invalidateCache h Sample.start))
     = [LogString "Web App Domain: d1.example.com";
        LogString "Could not find distribution with domain d1.example.com"].
Proof.
  intro h.
  apply (invalidateCache_unmatched_raises h Sample.start "d1.example.com"
           (mkState 1 [LogString "Web App Domain: d1.example.com"] [] [])
           (mkListDistributionsResult [mkDistribution "E999" "other.com"])
           (mkState 2 [LogString "Web App Domain: d1.example.com"] [] [])).
  - reflexivity.
  - reflexivity.
  - simpl. intros x [<-|[]]. discriminate.
Defined.

(** ** Sync and Empty *)

Section Mutating.
Context {World : Type}.
Variable h : Host World.

(** [syncDirectory] after the resolver delivered the bucket: the arguments
    are written, the command runs, and the success line follows an empty
    standard error. *)
Lemma syncDirectory_fulfilled st s3Bucket st1 ran w :
  getDescribeStacksOutput h "WebAppS3BucketOutput" st
  = (Fulfilled s3Bucket, st1) ->
  spawnSync h (world st1) (awsCommand h) (syncArgs h s3Bucket) = (ran, w) ->
  syncDirectory h st
  = mkState w
      (log st1 ++ [LogArray (syncArgs h s3Bucket)]
       ++ stream_lines (spawn_stdout ran) ++ stream_lines (spawn_stderr ran)
       ++ (if truthy (spawn_stderr ran) then []
           else [LogString "Successfully synced to the S3 bucket"]))
      (spawned st1 ++ [mkInvocation (awsCommand h) (syncArgs h s3Bucket)])
      (unhandled st1).
Proof.
  intros Hres Hspawn. unfold syncDirectory, detach.
  rewrite (bind_fulfilled _ _ _ _ _ Hres).
  unfold bind at 1. unfold cli_log at 1. unfold bind at 1.
  rewrite runAwsCommand_run. simpl. rewrite Hspawn.
  unfold succeeded, when, cli_log, ret. simpl.
  destruct (truthy (spawn_stderr ran)); simpl;
    rewrite <- ?app_assoc; simpl; rewrite ?app_nil_r; reflexivity.
Qed.

(** [emptyBucket] after the resolver delivered the bucket. *)
Lemma emptyBucket_fulfilled st s3Bucket st1 ran w :
  getDescribeStacksOutput h "WebAppS3BucketOutput" st
  = (Fulfilled s3Bucket, st1) ->
  spawnSync h (world st1) (awsCommand h) (emptyArgs s3Bucket) = (ran, w) ->
  emptyBucket h st
  = mkState w
      (log st1
       ++ stream_lines (spawn_stdout ran) ++ stream_lines (spawn_stderr ran)
       ++ (if truthy (spawn_stderr ran) then []
           else [LogString "Successfully synced to the S3 bucket"]))
      (spawned st1 ++ [mkInvocation (awsCommand h) (emptyArgs s3Bucket)])
      (unhandled st1).
Proof.
  intros Hres Hspawn. unfold emptyBucket, detach.
  rewrite (bind_fulfilled _ _ _ _ _ Hres).
  unfold bind at 1.
  rewrite runAwsCommand_run. rewrite Hspawn.
  unfold succeeded, when, cli_log, ret. simpl.
  destruct (truthy (spawn_stderr ran)); simpl;
    rewrite <- ?app_assoc; simpl; rewrite ?app_nil_r; reflexivity.
Qed.

(** Both operations after the resolver's promise was rejected: the
    callback does not run and nobody holds the rejected promise. *)
Lemma syncDirectory_rejected st e st1 :
  getDescribeStacksOutput h "WebAppS3BucketOutput" st = (Rejected e, st1) ->
  syncDirectory h st
  = mkState (world st1) (log st1) (spawned st1) (unhandled st1 ++ [e]).
Proof.
  intros Hres. unfold syncDirectory.
  apply detach_rejected. now rewrite (bind_rejected _ _ _ _ _ Hres).
Qed.

Lemma emptyBucket_rejected st e st1 :
  getDescribeStacksOutput h "WebAppS3BucketOutput" st = (Rejected e, st1) ->
  emptyBucket h st
  = mkState (world st1) (log st1) (spawned st1) (unhandled st1 ++ [e]).
Proof.
  intros Hres. unfold emptyBucket.
  apply detach_rejected. now rewrite (bind_rejected _ _ _ _ _ Hres).
Qed.

(** What a resolver that delivered or failed leaves of the state it
    started from. *)
Lemma resolver_kept key st o st1 :
  getDescribeStacksOutput h key st = (o, st1) ->
  log st1 = log st /\ spawned st1 = spawned st /\ unhandled st1 = unhandled st.
Proof.
  intros Hres.
  pose proof (getDescribeStacksOutput_frame h key st) as Hfr.
  now rewrite Hres in Hfr.
Qed.
End Mutating.

(** C9.  When the command of Empty leaves the standard error empty, the
    last line Empty writes is 'Successfully synced to the S3 bucket', the
    line Sync writes after its own command succeeds. *)
Theorem emptyBucket_success_message_is_sync_message
  {World} (h : Host World) st s3Bucket st1 ran w :
  getDescribeStacksOutput h "WebAppS3BucketOutput" st
  = (Fulfilled s3Bucket, st1) ->
  spawnSync h (world st1) (awsCommand h) (emptyArgs s3Bucket) = (ran, w) ->
  spawn_stderr ran = "" ->
  log (emptyBucket h st)
  = (log st ++ stream_lines (spawn_stdout ran)
     ++ [LogString "Successfully synced to the S3 bucket"])%list
  /\ forall ran' w',
       spawnSync h (world st1) (awsCommand h) (syncArgs h s3Bucket)
       = (ran', w') ->
       spawn_stderr ran' = "" ->
       log (syncDirectory h st)
       = (log st ++ [LogArray (syncArgs h s3Bucket)]
          ++ stream_lines (spawn_stdout ran')
          ++ [LogString "Successfully synced to the S3 bucket"])%list.
Proof.
  intros Hres Hspawn Herr.
  destruct (resolver_kept h _ _ _ _ Hres) as (Hlog & _ & _).
  split.
  - rewrite (emptyBucket_fulfilled h _ _ _ _ _ Hres Hspawn). simpl.
    rewrite Herr, Hlog. reflexivity.
  - intros ran' w' Hspawn' Herr'.
    rewrite (syncDirectory_fulfilled h _ _ _ _ _ Hres Hspawn'). simpl.
    rewrite Herr', Hlog. reflexivity.
Qed.

(** The bucket is my-bucket and the command prints nothing. *)
Lemma emptyBucket_success_message_is_sync_message_witness :
  let h := Sample.host None None
             (Sample.stack [mkOutput "WebAppS3BucketOutput" "my-bucket"])
             Sample.no_distributions Sample.quiet in
  log (emptyBucket h Sample.start)
  = [LogString "Successfully synced to the S3 bucket"]
  /\ log (syncDirectory h Sample.start)
     = [LogArray ["s3"; "sync"; "app"; "s3://my-bucket/"];
        LogString "Successfully synced to the S3 bucket"].
Proof.
  intro h.
  destruct (emptyBucket_success_message_is_sync_message h Sample.start
              "my-bucket" (mkState 1 [] [] []) Sample.quiet 2)
    as [Hempty Hsync].
  - reflexivity.
  - reflexivity.
  - reflexivity.
  - split.
    + exact Hempty.
    + apply (Hsync Sample.quiet 2); reflexivity.
Defined.

(** C10.  Sync and Empty hand [undefined] to their caller whatever
    happens, and when the description request fails they write no line,
    start no process, and leave the rejection unhandled: nothing of the
    failure reaches the caller. *)
Theorem sync_and_empty_drop_their_promise
  {World} (h : Host World) st e st1 :
  stackDescription h st = (Rejected e, st1) ->
  forall op, op = Sync \/ op = Empty ->
    (forall h' st', fst (run_operation (World := World) h' op st')
                    = ReturnedUndefined)
    /\ raises (fst (run_operation h op st)) = false
    /\ log (snd (run_operation h op st)) = log st
    /\ spawned (snd (run_operation h op st)) = spawned st
    /\ unhandled (snd (run_operation h op st)) = (unhandled st ++ [e])%list.
Proof.
  intros Hreq op Hop.
  pose proof (getDescribeStacksOutput_request_failed h
                "WebAppS3BucketOutput" st e st1 Hreq) as Hres.
  destruct (resolver_kept h _ _ _ _ Hres) as (Hlog & Hsp & Hun).
  destruct Hop as [-> | ->]; simpl; unfold returning_undefined; simpl.
  - rewrite (syncDirectory_rejected h _ _ _ Hres). simpl.
    rewrite Hlog, Hsp, Hun. auto.
  - rewrite (emptyBucket_rejected h _ _ _ Hres). simpl.
    rewrite Hlog, Hsp, Hun. auto.
Qed.

(** The provider throttles the description request and Sync is invoked. *)
Lemma sync_and_empty_drop_their_promise_witness :
  let h := Sample.host None None (Rejected (RequestError "Rate exceeded"))
             Sample.no_distributions Sample.quiet in
  (forall h' st', fst (run_operation (World := nat) h' Sync st')
                  = ReturnedUndefined)
  /\ raises (fst (run_operation h Sync Sample.start)) = false
  /\ log (snd (run_operation h Sync Sample.start)) = []
  /\ spawned (snd (run_operation h Sync Sample.start)) = []
  /\ unhandled (snd (run_operation h Sync Sample.start))
     = [RequestError "Rate exceeded"].
Proof.
  intro h.
  apply (sync_and_empty_drop_their_promise h Sample.start
           (RequestError "Rate exceeded") (mkState 1 [] [] [])).
  - reflexivity.
  - left. reflexivity.
Defined.

(** ** Which operations raise *)

Section Propagation.
Context {World : Type}.
Variable h : Host World.

(** The promise [domainInfo] returns settles as the resolver's does. *)
Lemma domainInfo_outcome st :
  fst (domainInfo h st)
  = fst (getDescribeStacksOutput h "WebAppCloudFrontDistributionOutput" st).
Proof.
  destruct (getDescribeStacksOutput h "WebAppCloudFrontDistributionOutput" st)
    as [[v|e] st1] eqn:Hres.
  - now rewrite (domainInfo_fulfilled h _ _ _ Hres).
  - now rewrite (domainInfo_rejected h _ _ _ Hres).
Qed.

(** An operation that raises returned a promise. *)
Lemma raises_only_promises (op : Operation) st :
  raises (fst (run_operation h op st)) = true ->
  op = DomainInfo \/ op = InvalidateCache.
Proof.
  destruct op; simpl; unfold returning_undefined; simpl;
    try discriminate; auto.
Qed.

(** A failed description request adds no line, whatever the operation
    among the four. *)
Lemma request_failed_no_line (op : Operation) st e st1 :
  stackDescription h st = (Rejected e, st1) ->
  op <> InvalidateCache ->
  log (snd (run_operation h op st)) = log st.
Proof.
  intros Hreq Hop.
  pose proof (getDescribeStacksOutput_request_failed h
                "WebAppS3BucketOutput" st e st1 Hreq) as Hbucket.
  pose proof (getDescribeStacksOutput_request_failed h
                "WebAppCloudFrontDistributionOutput" st e st1 Hreq) as Hdomain.
  destruct (resolver_kept h _ _ _ _ Hbucket) as (Hlog & _ & _).
  destruct op; simpl; unfold returning_undefined, returning_promise; simpl.
  - now rewrite (syncDirectory_rejected h _ _ _ Hbucket).
  - now rewrite (emptyBucket_rejected h _ _ _ Hbucket).
  - now rewrite (bucketInfo_rejected h _ _ _ Hbucket).
  - now rewrite (domainInfo_rejected h _ _ _ Hdomain).
  - contradiction.
Qed.
End Propagation.

(** C7, the claim as stated fails: with a description request that the
    provider rejects, DomainInfo, which is not InvalidateCache, hands its
    caller a rejected promise. *)
Lemma four_operations_never_raise_counterexample :
  ~ (forall (h : Host nat) (op : Operation) (st : State nat),
        op <> InvalidateCache ->
        raises (fst (run_operation h op st)) = false).
Proof.
  intros Hclaim.
  specialize (Hclaim
                (Sample.host None None (Rejected (RequestError "Rate exceeded"))
                   Sample.no_distributions Sample.quiet)
                DomainInfo Sample.start).
  simpl in Hclaim.
  assert (Hne : DomainInfo <> InvalidateCache) by discriminate.
  specialize (Hclaim Hne). discriminate Hclaim.
Qed.

(** C7, amended.  Sync, Empty and BucketInfo return [undefined] and never
    raise; the operations that raise are DomainInfo and InvalidateCache,
    and DomainInfo raises exactly the error that rejected the resolver's
    promise.  A failed description request is not caught: none of the four
    operations writes a line for it.  A command of Sync or Empty that fails
    (non-empty standard error) has that text written to the log, without the
    success line and without any error raised or left unhandled. *)
Theorem operations_error_propagation {World} (h : Host World) st :
  (forall op, op = Sync \/ op = Empty \/ op = BucketInfo ->
     fst (run_operation h op st) = ReturnedUndefined)
  /\ (forall op, raises (fst (run_operation h op st)) = true ->
        op = DomainInfo \/ op = InvalidateCache)
  /\ (forall e,
        fst (getDescribeStacksOutput h "WebAppCloudFrontDistributionOutput" st)
        = Rejected e <->
        fst (run_operation h DomainInfo st) = ReturnedPromise (Rejected e))
  /\ (forall e st1 op,
        stackDescription h st = (Rejected e, st1) ->
        op <> InvalidateCache ->
        log (snd (run_operation h op st)) = log st)
  /\ (forall s3Bucket st1,
        getDescribeStacksOutput h "WebAppS3BucketOutput" st
        = (Fulfilled s3Bucket, st1) ->
        (forall ran w,
           spawnSync h (world st1) (awsCommand h) (syncArgs h s3Bucket)
           = (ran, w) ->
           spawn_stderr ran <> "" ->
           log (syncDirectory h st)
           = (log st ++ [LogArray (syncArgs h s3Bucket)]
              ++ stream_lines (spawn_stdout ran)
              ++ [LogString (spawn_stderr ran)])%list
           /\ unhandled (syncDirectory h st) = unhandled st)
        /\ (forall ran w,
              spawnSync h (world st1) (awsCommand h) (emptyArgs s3Bucket)
              = (ran, w) ->
              spawn_stderr ran <> "" ->
              log (emptyBucket h st)
              = (log st ++ stream_lines (spawn_stdout ran)
                 ++ [LogString (spawn_stderr ran)])%list
              /\ unhandled (emptyBucket h st) = unhandled st)).
Proof.
  split; [|split; [|split; [|split]]].
  - intros op [-> | [-> | ->]]; reflexivity.
  - intros op. apply raises_only_promises.
  - intros e. simpl. unfold returning_promise.
    rewrite <- (domainInfo_outcome h st).
    destruct (domainInfo h st) as [[v|e'] st']; simpl; split;
      intros Heq; try discriminate; congruence.
  - intros e st1 op Hreq Hop. now apply (request_failed_no_line h op st e st1).
  - intros s3Bucket st1 Hres.
    destruct (resolver_kept h _ _ _ _ Hres) as (Hlog & _ & Hun).
    split; intros ran w Hspawn Herr; apply truthy_true_iff in Herr.
    + rewrite (syncDirectory_fulfilled h _ _ _ _ _ Hres Hspawn). simpl.
      unfold stream_lines at 2. rewrite Herr, Hlog, Hun. simpl.
      rewrite ?app_nil_r. auto.
    + rewrite (emptyBucket_fulfilled h _ _ _ _ _ Hres Hspawn). simpl.
      unfold stream_lines at 2. rewrite Herr, Hlog, Hun. simpl.
      rewrite ?app_nil_r. auto.
Qed.

(** The bucket resolves, the domain's key is missing, and the command
    complains on its standard error while exiting with status 0. *)
Lemma operations_error_propagation_witness :
  let h := Sample.host None None
             (Sample.stack [mkOutput "WebAppS3BucketOutput" "my-bucket"])
             Sample.no_distributions
             (mkSpawnResult 0 "" "fatal error: access denied") in
  fst (run_operation h BucketInfo Sample.start) = ReturnedUndefined
  /\ fst (run_operation h DomainInfo Sample.start)
     = ReturnedPromise (Rejected (TypeError "OutputValue"))
  /\ log (syncDirectory h Sample.start)
     = [LogArray ["s3"; "sync"; "app"; "s3://my-bucket/"];
        LogString "fatal error: access denied"]
  /\ unhandled (syncDirectory h Sample.start) = []
  /\ log (emptyBucket h Sample.start)
     = [LogString "fatal error: access denied"]
  /\ unhandled (emptyBucket h Sample.start) = [].
Proof.
  intro h.
  destruct (operations_error_propagation h Sample.start)
    as (Hundef & _ & Hdomain & _ & Hfail).
  destruct (Hfail "my-bucket" (mkState 1 [] [] []) eq_refl) as [Hsync Hempty].
  destruct (Hsync (mkSpawnResult 0 "" "fatal error: access denied") 2 eq_refl)
    as [Hsync_log Hsync_un]; [discriminate|].
  destruct (Hempty (mkSpawnResult 0 "" "fatal error: access denied") 2 eq_refl)
    as [Hempty_log Hempty_un]; [discriminate|].
  split; [apply Hundef; auto|].
  split; [apply Hdomain; reflexivity|].
  split; [exact Hsync_log|].
  split; [exact Hsync_un|].
  split; [exact Hempty_log|exact Hempty_un].
Defined.


(** * Further properties of the plugin *)

(** ** The resolver, beyond the absent key *)

Section ResolverMore.
Context {World : Type}.
Variable h : Host World.

(** The resolver changes the world by its one request and by nothing
    else. *)
Lemma resolver_world key st :
  world (snd (getDescribeStacksOutput h key st))
  = snd (describeStacks h (world st) (getStackName h (options_stage h))
           (options_stage h) (options_region h)).
Proof.
  unfold getDescribeStacksOutput, bind, stackDescription,
    request_describeStacks, settle.
  destruct (describeStacks h _ _ _ _) as [[result|e] w]; reflexivity.
Qed.

(** The state [domainInfo] leaves after the resolver delivered a value,
    in terms of the state it started from. *)
Lemma domainInfo_state st domain st0 :
  getDescribeStacksOutput h "WebAppCloudFrontDistributionOutput" st
  = (Fulfilled domain, st0) ->
  domainInfo h st
  = (Fulfilled domain,
     mkState (world st0)
       (log st ++ [LogString ("Web App Domain: " ++ or_else domain "Not Found")])
       (spawned st) (unhandled st)).
Proof.
  intros Hres.
  destruct (resolver_kept h _ _ _ _ Hres) as (Hlog & Hsp & Hun).
  rewrite (domainInfo_fulfilled h _ _ _ Hres). now rewrite Hlog, Hsp, Hun.
Qed.
End ResolverMore.

(** X1.  A key carried by outputs of the first stack resolves to the value
    of the first of them in the list, later outputs with the same key
    notwithstanding; the resolver writes no line, starts no process and
    leaves no rejection behind. *)
Theorem resolver_returns_first_matching_value
  {World} (h : Host World) key st result st1 before o after rest :
  stackDescription h st = (Fulfilled result, st1) ->
  Stacks result = mkStack (before ++ o :: after) :: rest ->
  (forall x, In x before -> OutputKey x <> key) ->
  OutputKey o = key ->
  getDescribeStacksOutput h key st = (Fulfilled (OutputValue o), st1)
  /\ log st1 = log st /\ spawned st1 = spawned st
  /\ unhandled st1 = unhandled st.
Proof.
  intros Hreq Hstacks Hbefore Ho.
  pose proof (getDescribeStacksOutput_present h key st result st1 before o
                after rest Hreq Hstacks Hbefore Ho) as Hres.
  split; [exact Hres|]. exact (resolver_kept h _ _ _ _ Hres).
Qed.

(** The bucket's key appears twice, after another output. *)
Lemma resolver_returns_first_matching_value_witness :
  let outputs := [mkOutput "ServiceEndpoint" "https://api";
                  mkOutput "WebAppS3BucketOutput" "first-bucket";
                  mkOutput "WebAppS3BucketOutput" "second-bucket"] in
  let h := Sample.host None None (Sample.stack outputs)
             Sample.no_distributions Sample.quiet in
  getDescribeStacksOutput h "WebAppS3BucketOutput" Sample.start
  = (Fulfilled "first-bucket", mkState 1 [] [] [])
  /\ log (mkState 1 [] [] []) = log Sample.start
  /\ spawned (mkState 1 [] [] []) = spawned Sample.start
  /\ unhandled (mkState 1 [] [] []) = unhandled Sample.start.
Proof.
  intros outputs h.
  apply (resolver_returns_first_matching_value h "WebAppS3BucketOutput"
           Sample.start (mkDescribeStacksResult [mkStack outputs])
           (mkState 1 [] [] [])
           [mkOutput "ServiceEndpoint" "https://api"]
           (mkOutput "WebAppS3BucketOutput" "first-bucket")
           [mkOutput "WebAppS3BucketOutput" "second-bucket"] []).
  - reflexivity.
  - reflexivity.
  - simpl. intros x [<-|[]]. discriminate.
  - reflexivity.
Defined.

(** X2.  When the description holds no stack at all, [result.Stacks[0]] is
    [undefined] and the resolver's promise is rejected with the TypeError of
    reading [Outputs], whatever the key; every operation built on the
    resolver then writes nothing and starts no process. *)
Theorem resolver_without_stack_rejects
  {World} (h : Host World) key st result st1 :
  stackDescription h st = (Fulfilled result, st1) ->
  Stacks result = [] ->
  getDescribeStacksOutput h key st = (Rejected (TypeError "Outputs"), st1)
  /\ forall op,
       log (snd (run_operation h op st)) = log st
       /\ spawned (snd (run_operation h op st)) = spawned st.
Proof.
  intros Hreq Hstacks.
  assert (Hres : forall k,
             getDescribeStacksOutput h k st
             = (Rejected (TypeError "Outputs"), st1)).
  { intros k. unfold getDescribeStacksOutput.
    rewrite (bind_fulfilled _ _ _ _ _ Hreq).
    unfold settle, outputValueOf. now rewrite Hstacks. }
  split; [apply Hres|].
  pose proof (stackDescription_frame h st) as Hfr.
  rewrite Hreq in Hfr. simpl in Hfr. destruct Hfr as (Hlog & Hsp & _).
  intros op.
  destruct op; simpl; unfold returning_undefined, returning_promise; simpl.
  - rewrite (syncDirectory_rejected h _ _ _ (Hres _)). simpl. auto.
  - rewrite (emptyBucket_rejected h _ _ _ (Hres _)). simpl. auto.
  - rewrite (bucketInfo_rejected h _ _ _ (Hres _)). simpl. auto.
  - rewrite (domainInfo_rejected h _ _ _ (Hres _)). simpl. auto.
  - unfold invalidateCache.
    rewrite (bind_rejected _ _ _ _ _ (domainInfo_rejected h _ _ _ (Hres _))).
    simpl. auto.
Qed.

(** The provider answers with an empty list of stacks. *)
Lemma resolver_without_stack_rejects_witness :
  let h := Sample.host None None
             (Fulfilled (mkDescribeStacksResult []))
             Sample.no_distributions Sample.quiet in
  getDescribeStacksOutput h "WebAppS3BucketOutput" Sample.start
  = (Rejected (TypeError "Outputs"), mkState 1 [] [] [])
  /\ forall op,
       log (snd (run_operation h op Sample.start)) = log Sample.start
       /\ spawned (snd (run_operation h op Sample.start))
          = spawned Sample.start.
Proof.
  intro h.
  apply (resolver_without_stack_rejects h "WebAppS3BucketOutput" Sample.start
           (mkDescribeStacksResult []) (mkState 1 [] [] [])).
  - reflexivity.
  - reflexivity.
Defined.

(** ** Every path of the cache invalidation *)

Section InvalidationPaths.
Context {World : Type}.
Variable h : Host World.

(** The listing request in terms of the provider's answer. *)
Lemma request_listDistributions_answer st answer w :
  listDistributions h (world st) (options_stage h) (options_region h)
  = (answer, w) ->
  request_listDistributions h st
  = (answer, mkState w (log st) (spawned st) (unhandled st)).
Proof.
  intros Hlist. unfold request_listDistributions. now rewrite Hlist.
Qed.

(** The whole of [invalidateCache] once a distribution matched: the two
    lines before the command, the command, and the branch on its standard
    error. *)
Lemma invalidateCache_ran st domain st0 result w1 d ran w2 :
  getDescribeStacksOutput h "WebAppCloudFrontDistributionOutput" st
  = (Fulfilled domain, st0) ->
  listDistributions h (world st0) (options_stage h) (options_region h)
  = (Fulfilled result, w1) ->
  find (fun entry => DomainName entry =? domain) (Items result) = Some d ->
  spawnSync h w1 (awsCommand h) (invalidationArgs (Id d)) = (ran, w2) ->
  invalidateCache h st
  = ((if truthy (spawn_stderr ran)
      then Rejected (PlainError "Failed invalidating CloudFront cache")
      else Fulfilled tt),
     mkState w2
       (log st
        ++ [LogString ("Web App Domain: " ++ or_else domain "Not Found");
            LogString ("Invalidating CloudFront distribution with id: " ++ Id d)]
        ++ stream_lines (spawn_stdout ran)
        ++ (if truthy (spawn_stderr ran)
            then [LogString (spawn_stderr ran)]
            else [LogString "Successfully invalidated CloudFront cache"]))
       (spawned st ++ [mkInvocation (awsCommand h) (invalidationArgs (Id d))])
       (unhandled st)).
Proof.
  intros Hres Hlist Hfind Hspawn.
  pose proof (domainInfo_state h _ _ _ Hres) as Hdom.
  pose proof (request_listDistributions_answer
                (mkState (world st0)
                   (log st ++ [LogString ("Web App Domain: "
                                          ++ or_else domain "Not Found")])
                   (spawned st) (unhandled st))
                _ _ Hlist) as Hreq.
  rewrite (invalidateCache_matched h _ _ _ _ _ _ Hdom Hreq Hfind).
  unfold bind at 1. unfold bind at 1. unfold cli_log at 1.
  rewrite runAwsCommand_run. simpl. rewrite Hspawn.
  unfold succeeded, stream_lines, cli_log, throw. simpl.
  destruct (truthy (spawn_stderr ran)); simpl;
    rewrite <- ?app_assoc; simpl; rewrite ?app_nil_r; reflexivity.
Qed.

(** The whole of [invalidateCache] when the listing request fails. *)
Lemma invalidateCache_listing_failed_state st domain st0 e w1 :
  getDescribeStacksOutput h "WebAppCloudFrontDistributionOutput" st
  = (Fulfilled domain, st0) ->
  listDistributions h (world st0) (options_stage h) (options_region h)
  = (Rejected e, w1) ->
  invalidateCache h st
  = (Rejected e,
     mkState w1
       (log st ++ [LogString ("Web App Domain: " ++ or_else domain "Not Found")])
       (spawned st) (unhandled st)).
Proof.
  intros Hres Hlist.
  pose proof (domainInfo_state h _ _ _ Hres) as Hdom.
  unfold invalidateCache.
  rewrite (bind_fulfilled _ _ _ _ _ Hdom).
  now rewrite (bind_rejected _ _ _ _ _
                 (request_listDistributions_answer
                    (mkState (world st0)
                       (log st ++ [LogString ("Web App Domain: "
                                              ++ or_else domain "Not Found")])
                       (spawned st) (unhandled st))
                    _ _ Hlist)).
Qed.
End InvalidationPaths.

(** X3.  When the domain cannot be resolved (the description request fails,
    or the resolver's callback throws), [invalidateCache] rejects with that
    very error and stops there: the listing is never requested (the world
    has seen the description request only), nothing is written and no
    process is started. *)
Theorem invalidateCache_stops_when_domain_unresolved
  {World} (h : Host World) st e st1 :
  getDescribeStacksOutput h "WebAppCloudFrontDistributionOutput" st
  = (Rejected e, st1) ->
  invalidateCache h st = (Rejected e, st1)
  /\ world st1
     = snd (describeStacks h (world st) (getStackName h (options_stage h))
              (options_stage h) (options_region h))
  /\ log st1 = log st /\ spawned st1 = spawned st
  /\ unhandled st1 = unhandled st.
Proof.
  intros Hres.
  split.
  - unfold invalidateCache.
    now rewrite (bind_rejected _ _ _ _ _ (domainInfo_rejected h _ _ _ Hres)).
  - split.
    + pose proof (resolver_world h "WebAppCloudFrontDistributionOutput" st)
        as Hw.
      now rewrite Hres in Hw.
    + exact (resolver_kept h _ _ _ _ Hres).
Qed.

(** The provider rejects the description request; a listing with a
    matching distribution is ready but is never asked for. *)
Lemma invalidateCache_stops_when_domain_unresolved_witness :
  let h := Sample.host None None (Rejected (RequestError "Rate exceeded"))
             (Fulfilled (mkListDistributionsResult Sample.two_distributions))
             Sample.quiet in
  invalidateCache h Sample.start
  = (Rejected (RequestError "Rate exceeded"), mkState 1 [] [] [])
  /\ world (mkState 1 [] [] []) = 1
  /\ log (mkState 1 [] [] []) = log Sample.start
  /\ spawned (mkState 1 [] [] []) = spawned Sample.start
  /\ unhandled (mkState 1 [] [] []) = unhandled Sample.start.
Proof.
  intro h.
  apply (invalidateCache_stops_when_domain_unresolved h Sample.start
           (RequestError "Rate exceeded") (mkState 1 [] [] [])).
  reflexivity.
Defined.

(** X4.  When the domain resolves and the listing request fails,
    [invalidateCache] rejects with the listing's error after the domain line
    was written, and no process is started. *)
Theorem invalidateCache_listing_failed
  {World} (h : Host World) st domain st0 e w1 :
  getDescribeStacksOutput h "WebAppCloudFrontDistributionOutput" st
  = (Fulfilled domain, st0) ->
  listDistributions h (world st0) (options_stage h) (options_region h)
  = (Rejected e, w1) ->
  invalidateCache h st
  = (Rejected e,
     mkState w1
       (log st ++ [LogString ("Web App Domain: " ++ or_else domain "Not Found")])
       (spawned st) (unhandled st)).
Proof.
  intros Hres Hlist.
  pose proof (domainInfo_state h _ _ _ Hres) as Hdom.
  unfold invalidateCache.
  rewrite (bind_fulfilled _ _ _ _ _ Hdom).
  now rewrite (bind_rejected _ _ _ _ _
                 (request_listDistributions_answer h
                    (mkState (world st0)
                       (log st ++ [LogString ("Web App Domain: "
                                              ++ or_else domain "Not Found")])
                       (spawned st) (unhandled st))
                    _ _ Hlist)).
Qed.

(** The domain resolves and the provider refuses the listing. *)
Lemma invalidateCache_listing_failed_witness :
  let h := Sample.host None None
             (Sample.stack
                [mkOutput "WebAppCloudFrontDistributionOutput" "d1.example.com"])
             (Rejected (RequestError "AccessDenied")) Sample.quiet in
  invalidateCache h Sample.start
  = (Rejected (RequestError "AccessDenied"),
     mkState 2 [LogString "Web App Domain: d1.example.com"] [] []).
Proof.
  intro h.
  apply (invalidateCache_listing_failed h Sample.start "d1.example.com"
           (mkState 1 [] [] []) (RequestError "AccessDenied") 2).
  - reflexivity.
  - reflexivity.
Defined.

(** X5.  When a distribution matches and the command leaves the standard
    error empty, [invalidateCache] fulfils its promise; the log gains, in
    this order, the domain line, the line naming the distribution's id, the
    command's standard output when there is some, and the success line; one
    process was started. *)
Theorem invalidateCache_succeeds
  {World} (h : Host World) st domain st0 result w1 d ran w2 :
  getDescribeStacksOutput h "WebAppCloudFrontDistributionOutput" st
  = (Fulfilled domain, st0) ->
  listDistributions h (world st0) (options_stage h) (options_region h)
  = (Fulfilled result, w1) ->
  find (fun entry => DomainName entry =? domain) (Items result) = Some d ->
  spawnSync h w1 (awsCommand h) (invalidationArgs (Id d)) = (ran, w2) ->
  spawn_stderr ran = "" ->
  invalidateCache h st
  = (Fulfilled tt,
     mkState w2
       (log st
        ++ [LogString ("Web App Domain: " ++ or_else domain "Not Found");
            LogString ("Invalidating CloudFront distribution with id: " ++ Id d)]
        ++ stream_lines (spawn_stdout ran)
        ++ [LogString "Successfully invalidated CloudFront cache"])
       (spawned st ++ [mkInvocation (awsCommand h) (invalidationArgs (Id d))])
       (unhandled st)).
Proof.
  intros Hres Hlist Hfind Hspawn Herr.
  rewrite (invalidateCache_ran h _ _ _ _ _ _ _ _ Hres Hlist Hfind Hspawn).
  apply truthy_false_iff in Herr. now rewrite Herr.
Qed.

(** The specification's two distributions; the command prints an id. *)
Lemma invalidateCache_succeeds_witness :
  let h := Sample.host (Some "us-east-1") None
             (Sample.stack
                [mkOutput "WebAppCloudFrontDistributionOutput" "d1.example.com"])
             (Fulfilled (mkListDistributionsResult Sample.two_distributions))
             (mkSpawnResult 0 "I2J0I21PCUYOIK" "") in
  invalidateCache h Sample.start
  = (Fulfilled tt,
     mkState 3
       [LogString "Web App Domain: d1.example.com";
        LogString "Invalidating CloudFront distribution with id: E123";
        LogString "I2J0I21PCUYOIK";
        LogString "Successfully invalidated CloudFront cache"]
       [mkInvocation "aws --region us-east-1"
          ["cloudfront"; "create-invalidation"; "--distribution-id"; "E123";
           "--paths"; quotedAllPaths]]
       []).
Proof.
  intro h.
  apply (invalidateCache_succeeds h Sample.start "d1.example.com"
           (mkState 1 [] [] [])
           (mkListDistributionsResult Sample.two_distributions) 2
           (mkDistribution "E123" "d1.example.com")
           (mkSpawnResult 0 "I2J0I21PCUYOIK" "") 3).
  - reflexivity.
  - reflexivity.
  - reflexivity.
  - reflexivity.
  - reflexivity.
Defined.

(** X6.  When a distribution matches and the command writes to its standard
    error, [invalidateCache] rejects with 'Failed invalidating CloudFront
    cache'; the command did run, its standard error is the last line of the
    log, and no success line is written. *)
Theorem invalidateCache_command_failed
  {World} (h : Host World) st domain st0 result w1 d ran w2 :
  getDescribeStacksOutput h "WebAppCloudFrontDistributionOutput" st
  = (Fulfilled domain, st0) ->
  listDistributions h (world st0) (options_stage h) (options_region h)
  = (Fulfilled result, w1) ->
  find (fun entry => DomainName entry =? domain) (Items result) = Some d ->
  spawnSync h w1 (awsCommand h) (invalidationArgs (Id d)) = (ran, w2) ->
  spawn_stderr ran <> "" ->
  invalidateCache h st
  = (Rejected (PlainError "Failed invalidating CloudFront cache"),
     mkState w2
       (log st
        ++ [LogString ("Web App Domain: " ++ or_else domain "Not Found");
            LogString ("Invalidating CloudFront distribution with id: " ++ Id d)]
        ++ stream_lines (spawn_stdout ran)
        ++ [LogString (spawn_stderr ran)])
       (spawned st ++ [mkInvocation (awsCommand h) (invalidationArgs (Id d))])
       (unhandled st)).
Proof.
  intros Hres Hlist Hfind Hspawn Herr.
  rewrite (invalidateCache_ran h _ _ _ _ _ _ _ _ Hres Hlist Hfind Hspawn).
  apply truthy_true_iff in Herr. now rewrite Herr.
Qed.

(** The command exits with status 0 and a warning on its standard error. *)
Lemma invalidateCache_command_failed_witness :
  let h := Sample.host None None
             (Sample.stack
                [mkOutput "WebAppCloudFrontDistributionOutput" "d1.example.com"])
             (Fulfilled (mkListDistributionsResult Sample.two_distributions))
             (mkSpawnResult 0 "" "warning: retrying") in
  invalidateCache h Sample.start
  = (Rejected (PlainError "Failed invalidating CloudFront cache"),
     mkState 3
       [LogString "Web App Domain: d1.example.com";
        LogString "Invalidating CloudFront distribution with id: E123";
        LogString "warning: retrying"]
       [mkInvocation "aws"
          ["cloudfront"; "create-invalidation"; "--distribution-id"; "E123";
           "--paths"; quotedAllPaths]]
       []).
Proof.
  intro h.
  apply (invalidateCache_command_failed h Sample.start "d1.example.com"
           (mkState 1 [] [] [])
           (mkListDistributionsResult Sample.two_distributions) 2
           (mkDistribution "E123" "d1.example.com")
           (mkSpawnResult 0 "" "warning: retrying") 3).
  - reflexivity.
  - reflexivity.
  - reflexivity.
  - reflexivity.
  - discriminate.
Defined.

(** X7.  [invalidateCache] never reports success without having run the
    command for the matched distribution: whenever its promise is fulfilled,
    the domain had resolved, the listing had arrived, [find] had returned a
    distribution [d] of that listing whose [DomainName] is the domain, the
    one process started carries the [Id] of [d] after [--distribution-id],
    that process left the standard error empty, and the success line is the
    last line of the log. *)
Theorem invalidateCache_fulfilled_only_after_command
  {World} (h : Host World) st st' :
  invalidateCache h st = (Fulfilled tt, st') ->
  exists domain st0 result w1 d ran w2,
    getDescribeStacksOutput h "WebAppCloudFrontDistributionOutput" st
    = (Fulfilled domain, st0)
    /\ listDistributions h (world st0) (options_stage h) (options_region h)
       = (Fulfilled result, w1)
    /\ find (fun entry => DomainName entry =? domain) (Items result) = Some d
    /\ In d (Items result)
    /\ DomainName d = domain
    /\ spawnSync h w1 (awsCommand h)
         ["cloudfront"; "create-invalidation"; "--distribution-id"; Id d;
          "--paths"; quotedAllPaths]
       = (ran, w2)
    /\ spawn_stderr ran = ""
    /\ st'
       = mkState w2
           (log st
            ++ [LogString ("Web App Domain: " ++ or_else domain "Not Found");
                LogString ("Invalidating CloudFront distribution with id: "
                           ++ Id d)]
            ++ stream_lines (spawn_stdout ran)
            ++ [LogString "Successfully invalidated CloudFront cache"])
           (spawned st
            ++ [mkInvocation (awsCommand h)
                  ["cloudfront"; "create-invalidation"; "--distribution-id";
                   Id d; "--paths"; quotedAllPaths]])
           (unhandled st).
Proof.
  intros Hrun.
  destruct (getDescribeStacksOutput h "WebAppCloudFrontDistributionOutput" st)
    as [[domain|e] st0] eqn:Hres.
  2:{ unfold invalidateCache in Hrun.
      rewrite (bind_rejected _ _ _ _ _ (domainInfo_rejected h _ _ _ Hres))
        in Hrun. discriminate. }
  pose proof (domainInfo_state h _ _ _ Hres) as Hdom.
  destruct (listDistributions h (world st0) (options_stage h) (options_region h))
    as [[result|e] w1] eqn:Hlist.
  2:{ rewrite (invalidateCache_listing_failed_state h _ _ _ _ _ Hres Hlist)
        in Hrun.
      discriminate. }
  destruct (find (fun entry => DomainName entry =? domain) (Items result))
    as [d|] eqn:Hfind.
  2:{ rewrite (invalidateCache_unmatched h _ _ _ _ _ Hdom
                 (request_listDistributions_answer h
                    (mkState (world st0)
                       (log st ++ [LogString ("Web App Domain: "
                                              ++ or_else domain "Not Found")])
                       (spawned st) (unhandled st))
                    _ _ Hlist) Hfind) in Hrun.
      discriminate. }
  destruct (spawnSync h w1 (awsCommand h) (invalidationArgs (Id d)))
    as [ran w2] eqn:Hspawn.
  rewrite (invalidateCache_ran h _ _ _ _ _ _ _ _ Hres Hlist Hfind Hspawn)
    in Hrun.
  destruct (truthy (spawn_stderr ran)) eqn:Herr; [discriminate|].
  injection Hrun as <-.
  exists domain, st0, result, w1, d, ran, w2.
  pose proof (find_some _ _ Hfind) as [Hin Heq].
  apply String.eqb_eq in Heq. apply truthy_false_iff in Herr.
  repeat split; auto.
Qed.

(** The successful invalidation of E123, found in the listing next to
    E999. *)
Lemma invalidateCache_fulfilled_only_after_command_witness :
  let h := Sample.host None None
             (Sample.stack
                [mkOutput "WebAppCloudFrontDistributionOutput" "d1.example.com"])
             (Fulfilled (mkListDistributionsResult Sample.two_distributions))
             Sample.quiet in
  exists domain st0 result w1 d ran w2,
    getDescribeStacksOutput h "WebAppCloudFrontDistributionOutput" Sample.start
    = (Fulfilled domain, st0)
    /\ listDistributions h (world st0) (options_stage h) (options_region h)
       = (Fulfilled result, w1)
    /\ find (fun entry => DomainName entry =? domain) (Items result) = Some d
    /\ In d (Items result)
    /\ DomainName d = domain
    /\ spawnSync h w1 (awsCommand h)
         ["cloudfront"; "create-invalidation"; "--distribution-id"; Id d;
          "--paths"; quotedAllPaths]
       = (ran, w2)
    /\ spawn_stderr ran = ""
    /\ snd (invalidateCache h Sample.start)
       = mkState w2
           (log Sample.start
            ++ [LogString ("Web App Domain: " ++ or_else domain "Not Found");
                LogString ("Invalidating CloudFront distribution with id: "
                           ++ Id d)]
            ++ stream_lines (spawn_stdout ran)
            ++ [LogString "Successfully invalidated CloudFront cache"])
           (spawned Sample.start
            ++ [mkInvocation (awsCommand h)
                  ["cloudfront"; "create-invalidation"; "--distribution-id";
                   Id d; "--paths"; quotedAllPaths]])
           (unhandled Sample.start).
Proof.
  intro h.
  apply (invalidateCache_fulfilled_only_after_command h Sample.start
           (snd (invalidateCache h Sample.start))).
  reflexivity.
Defined.

(** ** Sync and Empty, in full *)

(** X8.  For a service that configures [s3LocalPath]: when the bucket
    resolves and the child process starts and has its streams captured,
    [syncDirectory] writes the argument array, runs that one process, whose
    shell line is the [aws] prefix followed by
    [s3 sync <s3LocalPath> s3://<bucket>/], and then writes the captured
    output and either the captured standard error or, when that is empty,
    the success line; on this path no rejection is left behind. *)
Theorem syncDirectory_runs_s3_sync
  {World} (h : Host World) st s3Bucket st1 ran w :
  getDescribeStacksOutput h "WebAppS3BucketOutput" st
  = (Fulfilled s3Bucket, st1) ->
  spawnSync h (world st1) (awsCommand h)
    ["s3"; "sync"; s3LocalPath h; ("s3://" ++ s3Bucket ++ "/")%string] = (ran, w) ->
  exists i,
    spawned (syncDirectory h st) = (spawned st ++ [i])%list
    /\ command_line i
       = join_spaces
           ("aws" :: spec_invocation (provider_region h) (provider_profile h)
                       ["s3"; "sync"; s3LocalPath h; ("s3://" ++ s3Bucket ++ "/")%string])
    /\ log (syncDirectory h st)
       = (log st
          ++ [LogArray ["s3"; "sync"; s3LocalPath h; ("s3://" ++ s3Bucket ++ "/")%string]]
          ++ stream_lines (spawn_stdout ran)
          ++ (if spawn_stderr ran =? ""
              then [LogString "Successfully synced to the S3 bucket"]
              else [LogString (spawn_stderr ran)]))%list
    /\ unhandled (syncDirectory h st) = unhandled st
    /\ world (syncDirectory h st) = w.
Proof.
  intros Hres Hspawn.
  destruct (resolver_kept h _ _ _ _ Hres) as (Hlog & Hsp & Hun).
  exists (mkInvocation (awsCommand h) (syncArgs h s3Bucket)).
  rewrite (syncDirectory_fulfilled h _ _ _ _ _ Hres Hspawn). simpl.
  rewrite Hlog, Hsp, Hun.
  split; [reflexivity|].
  split; [apply awsCommand_line|].
  split; [|auto].
  unfold stream_lines at 2, truthy.
  destruct (spawn_stderr ran =? ""); simpl; reflexivity.
Qed.

(** A region is configured and the command reports one upload. *)
Lemma syncDirectory_runs_s3_sync_witness :
  let h := Sample.host (Some "eu-west-1") (Some "deploy")
             (Sample.stack [mkOutput "WebAppS3BucketOutput" "my-bucket"])
             Sample.no_distributions
             (mkSpawnResult 0 "upload: app/index.html" "") in
  exists i,
    spawned (syncDirectory h Sample.start) = (spawned Sample.start ++ [i])%list
    /\ command_line i
       = join_spaces
           ("aws" :: spec_invocation (Some "eu-west-1") (Some "deploy")
                       ["s3"; "sync"; "app"; "s3://my-bucket/"])
    /\ log (syncDirectory h Sample.start)
       = [LogArray ["s3"; "sync"; "app"; "s3://my-bucket/"];
          LogString "upload: app/index.html";
          LogString "Successfully synced to the S3 bucket"]
    /\ unhandled (syncDirectory h Sample.start) = []
    /\ world (syncDirectory h Sample.start) = 2.
Proof.
  intro h.
  apply (syncDirectory_runs_s3_sync h Sample.start "my-bucket"
           (mkState 1 [] [] []) (mkSpawnResult 0 "upload: app/index.html" "") 2).
  - reflexivity.
  - reflexivity.
Defined.

(** X9.  When the bucket resolves and the child process starts and has its
    streams captured, [emptyBucket] runs that one process, whose shell line
    is the [aws] prefix followed by [s3 rm s3://<bucket>/ --recursive];
    unlike Sync it does not write its arguments; it then writes the captured
    output and either the captured standard error or the line
    'Successfully synced to the S3 bucket'; on this path no rejection is
    left behind. *)
Theorem emptyBucket_runs_s3_rm
  {World} (h : Host World) st s3Bucket st1 ran w :
  getDescribeStacksOutput h "WebAppS3BucketOutput" st
  = (Fulfilled s3Bucket, st1) ->
  spawnSync h (world st1) (awsCommand h)
    ["s3"; "rm"; ("s3://" ++ s3Bucket ++ "/")%string; "--recursive"] = (ran, w) ->
  exists i,
    spawned (emptyBucket h st) = (spawned st ++ [i])%list
    /\ command_line i
       = join_spaces
           ("aws" :: spec_invocation (provider_region h) (provider_profile h)
                       ["s3"; "rm"; ("s3://" ++ s3Bucket ++ "/")%string; "--recursive"])
    /\ log (emptyBucket h st)
       = (log st
          ++ stream_lines (spawn_stdout ran)
          ++ (if spawn_stderr ran =? ""
              then [LogString "Successfully synced to the S3 bucket"]
              else [LogString (spawn_stderr ran)]))%list
    /\ unhandled (emptyBucket h st) = unhandled st
    /\ world (emptyBucket h st) = w.
Proof.
  intros Hres Hspawn.
  destruct (resolver_kept h _ _ _ _ Hres) as (Hlog & Hsp & Hun).
  exists (mkInvocation (awsCommand h) (emptyArgs s3Bucket)).
  rewrite (emptyBucket_fulfilled h _ _ _ _ _ Hres Hspawn). simpl.
  rewrite Hlog, Hsp, Hun.
  split; [reflexivity|].
  split; [apply awsCommand_line|].
  split; [|auto].
  unfold stream_lines at 2, truthy.
  destruct (spawn_stderr ran =? ""); simpl; reflexivity.
Qed.

(** The command fails with a message on its standard error. *)
Lemma emptyBucket_runs_s3_rm_witness :
  let h := Sample.host None (Some "deploy")
             (Sample.stack [mkOutput "WebAppS3BucketOutput" "my-bucket"])
             Sample.no_distributions
             (mkSpawnResult 255 "" "fatal error: NoSuchBucket") in
  exists i,
    spawned (emptyBucket h Sample.start) = (spawned Sample.start ++ [i])%list
    /\ command_line i
       = join_spaces
           ("aws" :: spec_invocation None (Some "deploy")
                       ["s3"; "rm"; "s3://my-bucket/"; "--recursive"])
    /\ log (emptyBucket h Sample.start)
       = [LogString "fatal error: NoSuchBucket"]
    /\ unhandled (emptyBucket h Sample.start) = []
    /\ world (emptyBucket h Sample.start) = 2.
Proof.
  intro h.
  apply (emptyBucket_runs_s3_rm h Sample.start "my-bucket"
           (mkState 1 [] [] [])
           (mkSpawnResult 255 "" "fatal error: NoSuchBucket") 2).
  - reflexivity.
  - reflexivity.
Defined.

(** X10.  Sync and Empty start a process only for a bucket the resolver
    delivered: if the resolver's promise is rejected, for whatever reason,
    both leave the list of processes and the log as they were, the world has
    seen the description request only, and the error stays unhandled. *)
Theorem mutating_operations_need_the_bucket
  {World} (h : Host World) st e st1 :
  getDescribeStacksOutput h "WebAppS3BucketOutput" st = (Rejected e, st1) ->
  forall body, body = syncDirectory h \/ body = emptyBucket h ->
    spawned (body st) = spawned st
    /\ log (body st) = log st
    /\ unhandled (body st) = (unhandled st ++ [e])%list
    /\ world (body st)
       = snd (describeStacks h (world st) (getStackName h (options_stage h))
                (options_stage h) (options_region h)).
Proof.
  intros Hres body Hbody.
  destruct (resolver_kept h _ _ _ _ Hres) as (Hlog & Hsp & Hun).
  pose proof (resolver_world h "WebAppS3BucketOutput" st) as Hw.
  rewrite Hres in Hw. simpl in Hw.
  destruct Hbody as [-> | ->].
  - rewrite (syncDirectory_rejected h _ _ _ Hres). simpl.
    rewrite Hlog, Hsp, Hun. auto.
  - rewrite (emptyBucket_rejected h _ _ _ Hres). simpl.
    rewrite Hlog, Hsp, Hun. auto.
Qed.

(** The stack exposes the domain but not the bucket; Empty is invoked. *)
Lemma mutating_operations_need_the_bucket_witness :
  let h := Sample.host None None
             (Sample.stack
                [mkOutput "WebAppCloudFrontDistributionOutput" "d1.example.com"])
             Sample.no_distributions Sample.quiet in
  spawned (emptyBucket h Sample.start) = spawned Sample.start
  /\ log (emptyBucket h Sample.start) = log Sample.start
  /\ unhandled (emptyBucket h Sample.start)
     = (unhandled Sample.start ++ [TypeError "OutputValue"])%list
  /\ world (emptyBucket h Sample.start) = 1.
Proof.
  intro h.
  apply (mutating_operations_need_the_bucket h Sample.start
           (TypeError "OutputValue") (mkState 1 [] [] []) eq_refl
           (emptyBucket h)).
  right. reflexivity.
Defined.

(** ** The info operations and the runner, in full *)

(** X11.  BucketInfo and DomainInfo only read: for every host and state
    they start no process, the world has seen exactly the one description
    request, and DomainInfo leaves no rejection behind (its promise goes to
    the caller). *)
Theorem info_operations_only_read {World} (h : Host World) st :
  let described :=
    snd (describeStacks h (world st) (getStackName h (options_stage h))
           (options_stage h) (options_region h)) in
  spawned (bucketInfo h st) = spawned st
  /\ world (bucketInfo h st) = described
  /\ spawned (snd (domainInfo h st)) = spawned st
  /\ world (snd (domainInfo h st)) = described
  /\ unhandled (snd (domainInfo h st)) = unhandled st.
Proof.
  intros described. subst described.
  pose proof (resolver_world h "WebAppS3BucketOutput" st) as Hwb.
  pose proof (resolver_world h "WebAppCloudFrontDistributionOutput" st) as Hwd.
  destruct (domainInfo_frame h st) as [Hsp Hun].
  split; [|split; [|split; [exact Hsp|split; [|exact Hun]]]].
  - destruct (getDescribeStacksOutput h "WebAppS3BucketOutput" st)
      as [[v|e] st1] eqn:Hres;
      destruct (resolver_kept h _ _ _ _ Hres) as (_ & Hsp1 & _).
    + now rewrite (bucketInfo_fulfilled h _ _ _ Hres).
    + now rewrite (bucketInfo_rejected h _ _ _ Hres).
  - destruct (getDescribeStacksOutput h "WebAppS3BucketOutput" st)
      as [[v|e] st1] eqn:Hres; simpl in Hwb.
    + now rewrite (bucketInfo_fulfilled h _ _ _ Hres).
    + now rewrite (bucketInfo_rejected h _ _ _ Hres).
  - destruct (getDescribeStacksOutput h "WebAppCloudFrontDistributionOutput" st)
      as [[v|e] st1] eqn:Hres; simpl in Hwd.
    + now rewrite (domainInfo_fulfilled h _ _ _ Hres).
    + now rewrite (domainInfo_rejected h _ _ _ Hres).
Qed.

(** X12.  Each info operation on its own: when the resolver delivers the
    value of the operation's key, the line written carries that value itself,
    except that a value that is the empty string is written as 'Not Found';
    DomainInfo still fulfils its promise with the value as resolved, the
    empty string included.  Nothing is assumed of the other operation's
    key. *)
Theorem info_line_shows_value_or_placeholder {World} (h : Host World) st :
  (forall bucket stb,
      getDescribeStacksOutput h "WebAppS3BucketOutput" st
      = (Fulfilled bucket, stb) ->
      log (bucketInfo h st)
      = (log st
         ++ [LogString ("Web App Bucket: "
                        ++ (if bucket =? "" then "Not Found" else bucket))%string])%list)
  /\ (forall domain std,
        getDescribeStacksOutput h "WebAppCloudFrontDistributionOutput" st
        = (Fulfilled domain, std) ->
        log (snd (domainInfo h st))
        = (log st
           ++ [LogString ("Web App Domain: "
                          ++ (if domain =? "" then "Not Found" else domain))%string])%list
        /\ fst (domainInfo h st) = Fulfilled domain).
Proof.
  split.
  - intros bucket stb Hb.
    destruct (resolver_kept h _ _ _ _ Hb) as (Hlogb & _ & _).
    rewrite (bucketInfo_fulfilled h _ _ _ Hb). simpl.
    rewrite Hlogb. unfold or_else, truthy.
    destruct (bucket =? ""); reflexivity.
  - intros domain std Hd.
    rewrite (domainInfo_state h _ _ _ Hd). simpl.
    unfold or_else, truthy.
    destruct (domain =? ""); auto.
Qed.

(** A stack that exposes the bucket only, with a name, and a stack that
    exposes the domain only, as the empty string. *)
Lemma info_line_shows_value_or_placeholder_witness :
  let bucket_only := Sample.host None None
                       (Sample.stack
                          [mkOutput "WebAppS3BucketOutput" "my-bucket"])
                       Sample.no_distributions Sample.quiet in
  let domain_only := Sample.host None None
                       (Sample.stack
                          [mkOutput "WebAppCloudFrontDistributionOutput" ""])
                       Sample.no_distributions Sample.quiet in
  log (bucketInfo bucket_only Sample.start)
  = [LogString "Web App Bucket: my-bucket"]
  /\ log (snd (domainInfo domain_only Sample.start))
     = [LogString "Web App Domain: Not Found"]
  /\ fst (domainInfo domain_only Sample.start) = Fulfilled "".
Proof.
  intros bucket_only domain_only.
  destruct (info_line_shows_value_or_placeholder bucket_only Sample.start)
    as [Hbucket _].
  destruct (info_line_shows_value_or_placeholder domain_only Sample.start)
    as [_ Hdomain].
  split.
  - apply (Hbucket "my-bucket" (mkState 1 [] [] [])). reflexivity.
  - apply (Hdomain "" (mkState 1 [] [] [])). reflexivity.
Defined.

(** X13.  When the child process starts and has its streams captured,
    [runAwsCommand] returns both captured streams unchanged, having written
    the standard output before the standard error and skipped a stream that
    is empty, so that it adds at most two lines, in that order, to the log;
    the process it started is the only one. *)
Theorem runAwsCommand_logs_streams
  {World} (h : Host World) (args : list string) st ran w :
  spawnSync h (world st) (awsCommand h) args = (ran, w) ->
  exists lines,
    runAwsCommand h args st
    = (Fulfilled (mkRunResult (spawn_stdout ran) (spawn_stderr ran)),
       mkState w (log st ++ lines)
         (spawned st ++ [mkInvocation (awsCommand h) args]) (unhandled st))
    /\ lines
       = ((if spawn_stdout ran =? "" then []
           else [LogString (spawn_stdout ran)])
          ++ (if spawn_stderr ran =? "" then []
              else [LogString (spawn_stderr ran)]))%list
    /\ length lines <= 2.
Proof.
  intros Hspawn.
  exists (stream_lines (spawn_stdout ran) ++ stream_lines (spawn_stderr ran))%list.
  rewrite runAwsCommand_run, Hspawn.
  split; [reflexivity|].
  unfold stream_lines, truthy.
  destruct (spawn_stdout ran =? ""), (spawn_stderr ran =? ""); simpl;
    split; auto.
Qed.

(** The command prints a line and a warning. *)
Lemma runAwsCommand_logs_streams_witness :
  let h := Sample.host None None (Sample.stack []) Sample.no_distributions
             (mkSpawnResult 1 "done" "warning") in
  exists lines,
    runAwsCommand h ["s3"; "ls"] Sample.start
    = (Fulfilled (mkRunResult "done" "warning"),
       mkState 1 (log Sample.start ++ lines)
         (spawned Sample.start ++ [mkInvocation (awsCommand h) ["s3"; "ls"]])
         (unhandled Sample.start))
    /\ lines = [LogString "done"; LogString "warning"]
    /\ length lines <= 2.
Proof.
  intro h.
  apply (runAwsCommand_logs_streams h ["s3"; "ls"] Sample.start
           (mkSpawnResult 1 "done" "warning") 1).
  reflexivity.
Defined.

(** ** What every operation keeps *)

Section Appending.
Context {World : Type}.
Variable h : Host World.

(** [invalidateCache] appends to the log, starts at most one process and
    leaves no rejection behind. *)
Lemma invalidateCache_appends st :
  exists lines procs,
    log (snd (invalidateCache h st)) = (log st ++ lines)%list
    /\ spawned (snd (invalidateCache h st)) = (spawned st ++ procs)%list
    /\ unhandled (snd (invalidateCache h st)) = unhandled st
    /\ length procs <= 1.
Proof.
  destruct (getDescribeStacksOutput h "WebAppCloudFrontDistributionOutput" st)
    as [[domain|e] st0] eqn:Hres.
  2:{ destruct (resolver_kept h _ _ _ _ Hres) as (Hlog & Hsp & Hun).
      exists [], []. unfold invalidateCache.
      rewrite (bind_rejected _ _ _ _ _ (domainInfo_rejected h _ _ _ Hres)).
      simpl. rewrite !app_nil_r. auto. }
  pose proof (domainInfo_state h _ _ _ Hres) as Hdom.
  destruct (listDistributions h (world st0) (options_stage h) (options_region h))
    as [[result|e] w1] eqn:Hlist.
  2:{ exists [LogString ("Web App Domain: " ++ or_else domain "Not Found")], [].
      rewrite (invalidateCache_listing_failed_state h st domain st0 e w1)
        by assumption.
      simpl. rewrite app_nil_r. auto. }
  pose proof (request_listDistributions_answer h
                (mkState (world st0)
                   (log st ++ [LogString ("Web App Domain: "
                                          ++ or_else domain "Not Found")])
                   (spawned st) (unhandled st))
                _ _ Hlist) as Hreq.
  destruct (find (fun entry => DomainName entry =? domain) (Items result))
    as [d|] eqn:Hfind.
  - destruct (spawnSync h w1 (awsCommand h) (invalidationArgs (Id d)))
      as [ran w2] eqn:Hspawn.
    rewrite (invalidateCache_ran h _ _ _ _ _ _ _ _ Hres Hlist Hfind Hspawn).
    cbn [snd log spawned unhandled].
    eexists. exists [mkInvocation (awsCommand h) (invalidationArgs (Id d))].
    split; [reflexivity|]. simpl. auto.
  - rewrite (invalidateCache_unmatched h _ _ _ _ _ Hdom Hreq Hfind).
    cbn [snd log spawned unhandled].
    exists [LogString ("Web App Domain: " ++ or_else domain "Not Found");
            LogString ("Could not find distribution with domain " ++ domain)], [].
    rewrite <- app_assoc, app_nil_r. simpl. auto.
Qed.
End Appending.

(** X14.  Every operation only appends: the log, the list of processes and
    the list of unhandled rejections it leaves extend the ones it found.  It
    starts at most one process, and none in BucketInfo and DomainInfo.  It
    leaves at most one rejection unhandled, and only in an operation that
    returned [undefined]. *)
Theorem operations_only_append {World} (h : Host World) (op : Operation) st :
  exists lines procs errs,
    log (snd (run_operation h op st)) = (log st ++ lines)%list
    /\ spawned (snd (run_operation h op st)) = (spawned st ++ procs)%list
    /\ unhandled (snd (run_operation h op st)) = (unhandled st ++ errs)%list
    /\ length procs <= 1
    /\ length errs <= 1
    /\ (procs <> [] -> op <> BucketInfo /\ op <> DomainInfo)
    /\ (errs <> [] -> fst (run_operation h op st) = ReturnedUndefined).
Proof.
  destruct op; simpl; unfold returning_undefined, returning_promise; simpl.
  - (* Sync *)
    destruct (getDescribeStacksOutput h "WebAppS3BucketOutput" st)
      as [[bucket|e] st1] eqn:Hres;
      destruct (resolver_kept h _ _ _ _ Hres) as (Hlog & Hsp & Hun).
    + destruct (spawnSync h (world st1) (awsCommand h) (syncArgs h bucket))
        as [ran w] eqn:Hspawn.
      rewrite (syncDirectory_fulfilled h _ _ _ _ _ Hres Hspawn).
      cbn [log spawned unhandled]. rewrite Hlog, Hsp, Hun.
      eexists. exists [mkInvocation (awsCommand h) (syncArgs h bucket)], [].
      split; [reflexivity|]. rewrite app_nil_r. simpl.
      repeat split; auto; try discriminate; congruence.
    + rewrite (syncDirectory_rejected h _ _ _ Hres).
      cbn [log spawned unhandled]. rewrite Hlog, Hsp, Hun.
      exists [], [], [e]. rewrite !app_nil_r. simpl.
      repeat split; auto; congruence.
  - (* Empty *)
    destruct (getDescribeStacksOutput h "WebAppS3BucketOutput" st)
      as [[bucket|e] st1] eqn:Hres;
      destruct (resolver_kept h _ _ _ _ Hres) as (Hlog & Hsp & Hun).
    + destruct (spawnSync h (world st1) (awsCommand h) (emptyArgs bucket))
        as [ran w] eqn:Hspawn.
      rewrite (emptyBucket_fulfilled h _ _ _ _ _ Hres Hspawn).
      cbn [log spawned unhandled]. rewrite Hlog, Hsp, Hun.
      eexists. exists [mkInvocation (awsCommand h) (emptyArgs bucket)], [].
      split; [reflexivity|]. rewrite app_nil_r. simpl.
      repeat split; auto; try discriminate; congruence.
    + rewrite (emptyBucket_rejected h _ _ _ Hres).
      cbn [log spawned unhandled]. rewrite Hlog, Hsp, Hun.
      exists [], [], [e]. rewrite !app_nil_r. simpl.
      repeat split; auto; congruence.
  - (* BucketInfo *)
    destruct (getDescribeStacksOutput h "WebAppS3BucketOutput" st)
      as [[bucket|e] st1] eqn:Hres;
      destruct (resolver_kept h _ _ _ _ Hres) as (Hlog & Hsp & Hun).
    + rewrite (bucketInfo_fulfilled h _ _ _ Hres).
      cbn [log spawned unhandled]. rewrite Hlog, Hsp, Hun.
      eexists. exists [], [].
      split; [reflexivity|]. rewrite !app_nil_r. simpl.
      repeat split; auto; congruence.
    + rewrite (bucketInfo_rejected h _ _ _ Hres).
      cbn [log spawned unhandled]. rewrite Hlog, Hsp, Hun.
      exists [], [], [e]. rewrite !app_nil_r. simpl.
      repeat split; auto; congruence.
  - (* DomainInfo *)
    pose proof (domainInfo_log h st) as Hlog.
    destruct (domainInfo_frame h st) as [Hsp Hun].
    exists (info_lines "Web App Domain: " "WebAppCloudFrontDistributionOutput"
              (fst (stackDescription h st))), [], [].
    destruct (domainInfo h st) as [[v|e] st1]; simpl in *;
      rewrite Hlog, Hsp, Hun, !app_nil_r;
      repeat split; auto; congruence.
  - (* InvalidateCache *)
    destruct (invalidateCache_appends h st) as (lines & procs & Hl & Hs & Hu & Hn).
    exists lines, procs, [].
    destruct (invalidateCache h st) as [[v|e] st1]; simpl in *;
      rewrite Hl, Hs, Hu, app_nil_r; simpl;
      repeat split; auto; try discriminate; congruence.
Qed.

(** ** The constructor's tables *)

(** X15.  The hooks and the declared commands agree: every lifecycle
    event of every declared command has a hook under [command:event]; the
    only other hook is 'before:remove:remove'; no other key has a hook.  The
    hook of 'before:remove:remove' is the handler of 'emptyBucket:empty':
    called in any state it hands [undefined] back to the framework, which
    therefore has nothing to wait on, and what it leaves is what
    [emptyBucket] leaves. *)
Theorem hooks_cover_commands {World} (h : Host World) :
  (forall c e,
      In c commands -> In e (lifecycleEvents c) ->
      hooks h (hook_key (command_name c) e) <> None)
  /\ (forall event, hooks h event <> None <-> In event hook_keys)
  /\ (forall event,
        In event hook_keys ->
        event = "before:remove:remove"
        \/ exists c e,
             In c commands /\ In e (lifecycleEvents c)
             /\ event = hook_key (command_name c) e)
  /\ hooks h "before:remove:remove" = hooks h "emptyBucket:empty"
  /\ (forall handler st,
        hooks h "before:remove:remove" = Some handler ->
        handler st = (ReturnedUndefined, emptyBucket h st)).
Proof.
  split; [|split; [|split; [|split]]].
  - intros c e Hc He. simpl in Hc.
    repeat (destruct Hc as [<- | Hc];
            [simpl in He; destruct He as [<- | []]; discriminate|]).
    contradiction.
  - intros event. unfold hooks, hook_keys. split.
    + repeat match goal with
             | |- context [event =? ?k] =>
                 destruct (String.eqb_spec event k) as [-> | _];
                 [intros _; simpl; auto 10|]
             end.
      intros Hnone. exfalso. now apply Hnone.
    + simpl. intros Hin.
      repeat (destruct Hin as [<- | Hin]; [discriminate|]).
      contradiction.
  - intros event Hin. unfold hook_keys in Hin. simpl in Hin.
    destruct Hin as [<- | [<- | [<- | [<- | [<- | [<- | []]]]]]].
    + right. exists (mkCommand "syncToS3"
                       "Deploys the `s3LocalPath` directory to your bucket"
                       ["sync"]), "sync".
      simpl. auto.
    + now left.
    + right. exists (mkCommand "emptyBucket" "Empties the deployed bucket"
                       ["empty"]), "empty".
      simpl. auto 6.
    + right. exists (mkCommand "domainInfo"
                       "Fetches and prints out the deployed CloudFront domain names"
                       ["domainInfo"]), "domainInfo".
      simpl. auto 8.
    + right. exists (mkCommand "bucketInfo"
                       "Fetches and prints out the deployed CloudFront bucket names"
                       ["bucketInfo"]), "bucketInfo".
      simpl. auto 8.
    + right. exists (mkCommand "invalidateCloudFrontCache"
                       "Invalidates CloudFront cache" ["invalidateCache"]),
        "invalidateCache".
      simpl. auto 10.
  - reflexivity.
  - intros handler st Hhook.
    change (hooks h "before:remove:remove")
      with (Some (run_operation h Empty)) in Hhook.
    injection Hhook as <-. reflexivity.
Qed.
